(** * Golden-fixture generator of go-sat: [scripts/generate_golden.py]

    A shallow embedding of the script and of the parts of its runtime it
    touches (the external tokenizer, the text file it opens, the JSON
    encoder it calls, standard output), followed by the properties of the
    generator.

    Python [str] values are sequences of Unicode code points, file contents
    are sequences of bytes, Python [int]s are unbounded integers.  The
    script is sequential and raises on every failure, so it is written in a
    state-and-exception monad over a [World] that holds the file system, the
    standard streams and a log of the calls made to the outside. *)

From Stdlib Require Import ZArith NArith List String Ascii Lia DecimalString.
From stdpp Require Import base tactics option list gmap.

Set Warnings "-register-all".
Open Scope N_scope.

(** ** Python values *)

(** A Python [str]: its code points, in order.  [len] counts code points. *)
Abbreviation str := (list N).

(** The contents of a file: bytes, each below 256. *)
Abbreviation bytes := (list N).

(** An ASCII literal of the script, as a [str]. *)
Definition lit (s : string) : str := map N_of_ascii (list_ascii_of_string s).

Definition len {A} (l : list A) : Z := Z.of_nat (length l).

(** [int.__repr__]: decimal digits, with a leading minus sign below zero.
    The limit that newer runtimes put on the number of digits is left
    out: every integer is printed. *)
Definition intstr (n : Z) : str := lit (NilZero.string_of_int (Z.to_int n)).

(** The exceptions that occur in a run.  [LibraryError] stands for whatever
    the tokenizer library raises; the others are raised by the runtime. *)
Inductive exn :=
| FileNotFoundError (path : str)
| NotADirectoryError (path : str)
| IsADirectoryError (path : str)
| UnicodeEncodeError (chunk : str)
| LibraryError (message : str).

Inductive result (A : Type) :=
| Ok (a : A)
| Raise (e : exn).
Arguments Ok {A} a.
Arguments Raise {A} e.

(** ** The external tokenizer *)

(** What [tok(text, ...)] returns, restricted to the two keys the script
    reads: [enc["input_ids"]] and [enc["offset_mapping"]]. *)
Record BatchEncoding := {
  input_ids : list Z;
  offset_mapping : list (Z * Z)
}.

(** The tokenizer object: calling it encodes a text under the two keyword
    flags the script passes, [convert_ids_to_tokens] resolves ids to token
    strings.  Both belong to the library and either may raise.  They are
    taken as functions of their arguments: the library keeps no state
    between calls and leaves the lists it is given as they are. *)
Record Tokenizer := {
  tok_call : str -> forall (return_offsets_mapping add_special_tokens : bool),
             result BatchEncoding;
  convert_ids_to_tokens : list Z -> result (list str)
}.

(** A text codec: the bytes of each code point, or nothing where the codec
    cannot encode it (errors are strict).  Codecs that keep state along the
    text are left out. *)
Definition codec := N -> option bytes.

(** What the script takes from its surroundings: the tokenizer library's
    loader, and the platform defaults that [open(path, "w")] falls back on,
    since the script passes neither [encoding] nor [newline]. *)
Record Env := {
  from_pretrained : str -> result Tokenizer;
  preferred_encoding : codec;
  linesep : str
}.

(** ** The world *)

(** The calls a run makes to the outside, as they are logged. *)
Inductive event :=
| EvFromPretrained (name : str)
| EvEncode (text : str) (return_offsets_mapping add_special_tokens : bool)
| EvConvertIds (ids : list Z)
| EvOpen (path : str)
| EvWrite (path : str) (chunk : str)
| EvClose (path : str)
| EvPrint (line : str).

(** Paths are relative to the working directory, which exists; every file
    may be written. *)
Record World := {
  dirs : gset str;          (* the directories that exist *)
  files : gmap str bytes;   (* the regular files and their contents *)
  stdout : str;             (* what has been printed *)
  trace : list event        (* the calls made so far, oldest first *)
}.

(** ** The monad of the script: state and exceptions *)

Definition M (A : Type) : Type := World -> result A * World.

Definition ret {A} (a : A) : M A := fun w => (Ok a, w).

Definition bind {A B} (m : M A) (k : A -> M B) : M B :=
  fun w => match m w with
           | (Ok a, w') => k a w'
           | (Raise e, w') => (Raise e, w')
           end.

Notation "x <- m ;; k" := (bind m (fun x => k))
  (at level 100, m at next level, right associativity).
Notation "m ;;; k" := (bind m (fun _ => k))
  (at level 100, right associativity).

Definition log (ev : event) : M unit :=
  fun w => (Ok tt, {| dirs := dirs w; files := files w; stdout := stdout w;
                      trace := trace w ++ [ev] |}).

(** Lifts a call into the library: its outcome is returned or raised. *)
Definition call {A} (r : result A) : M A :=
  fun w => (r, w).

(** ** The tokenizer calls of the script

    The [World] is what the script itself addresses; the download cache
    the library keeps for its models lies outside it. *)

Definition AutoTokenizer_from_pretrained (env : Env) (name : str) : M Tokenizer :=
  log (EvFromPretrained name) ;;;
  call (from_pretrained env name).

Definition tok_encode (tok : Tokenizer) (text : str)
    (return_offsets_mapping add_special_tokens : bool) : M BatchEncoding :=
  log (EvEncode text return_offsets_mapping add_special_tokens) ;;;
  call (tok_call tok text return_offsets_mapping add_special_tokens).

Definition tok_convert_ids_to_tokens (tok : Tokenizer) (ids : list Z) : M (list str) :=
  log (EvConvertIds ids) ;;;
  call (convert_ids_to_tokens tok ids).

(** ** The script: data *)

(** One element of [results]: the dict with the four keys of the script. *)
Record GoldenRecord := {
  input : str;
  token_ids : list Z;
  offsets : list (Z * Z);
  tokens : list str
}.

(** The list [test_cases], as the literals stand in the file (its text is
    read as UTF-8); the non-ASCII ones are given by their code points. *)
Definition test_cases : list str := [
  lit "Hello";
  lit "Hello world";
  lit "Hello world.";
  lit "I want to";
  lit "Thank you very much.";
  lit "This is a test sentence.";
  lit "The quick brown fox jumps over the lazy dog.";
  [];
  lit "caf" ++ [0xC3; 0xA9];
  [0xE4; 0xBD; 0xA0; 0xE5; 0xA5; 0xBD; 0xE4; 0xB8; 0x2013; 0xE7; 0x2022; 0x152];
  [0xF0; 0x178; 0x17D; 0x2030]
].

(** ** The script: the per-input loop

    [for text in test_cases: enc = tok(...); results.append({...})], with
    [results] threaded through.  The dict display evaluates its values in
    order, so the id resolution comes after the encode call. *)
Fixpoint main_loop (tok : Tokenizer) (cases : list str) (results : list GoldenRecord)
    : M (list GoldenRecord) :=
  match cases with
  | [] => ret results
  | text :: rest =>
      enc <- tok_encode tok text true false ;;
      toks <- tok_convert_ids_to_tokens tok (input_ids enc) ;;
      main_loop tok rest
        (results ++ [{| input := text;
                        token_ids := input_ids enc;
                        offsets := offset_mapping enc;
                        tokens := toks |}])
  end.

(** ** The JSON encoder of the runtime: [json.dump]

    The values [json.dump] is given here are built from strings, integers,
    lists, tuples and dicts (in insertion order). *)
Inductive pyval :=
| PStr (s : str)
| PInt (n : Z)
| PList (items : list pyval)
| PTuple (items : list pyval)
| PDict (items : list (str * pyval)).

(** A hexadecimal digit, lower case, as [format(n, "x")] prints it. *)
Definition hex_digit (d : N) : N := if d <? 10 then 48 + d else 87 + d.

(** ['\\u{0:04x}'.format(n)] for [n] below 65536. *)
Definition u_escape (n : N) : str :=
  lit "\u" ++ [hex_digit (n / 4096 mod 16); hex_digit (n / 256 mod 16);
               hex_digit (n / 16 mod 16); hex_digit (n mod 16)].

(** The replacement of one character inside a JSON string.  The short
    escapes and the control characters are always replaced; with
    [ensure_ascii] so is everything outside [' '..'~'], above the basic
    plane as a surrogate pair. *)
Definition escape_char (ensure_ascii : bool) (c : N) : str :=
  if c =? 0x5C then lit "\\"
  else if c =? 0x22 then [0x5C; 0x22]
  else if c =? 0x08 then lit "\b"
  else if c =? 0x0C then lit "\f"
  else if c =? 0x0A then lit "\n"
  else if c =? 0x0D then lit "\r"
  else if c =? 0x09 then lit "\t"
  else if c <? 0x20 then u_escape c
  else if negb ensure_ascii || (c <? 0x7F) then [c]
  else if c <? 0x10000 then u_escape c
  else let v := c - 0x10000 in
       u_escape (0xD800 + v / 1024 mod 1024) ++ u_escape (0xDC00 + v mod 1024).

(** [encode_basestring] / [encode_basestring_ascii]: the quoted string. *)
Definition encode_basestring (ensure_ascii : bool) (s : str) : str :=
  [0x22] ++ flat_map (escape_char ensure_ascii) s ++ [0x22].

Section Encoder.
Variable indent : nat.          (* [indent=]: spaces per nesting level *)
Variable ensure_ascii : bool.   (* [ensure_ascii=] *)

(** With an indent the item separator is [","], the key separator [": "]. *)
Definition item_separator : str := lit ",".
Definition key_separator : str := lit ": ".

(** ['\n' + _indent * level], where [_indent = ' ' * indent]. *)
Definition newline_indent (level : nat) : str :=
  [0x0A] ++ concat (repeat (repeat 0x20 indent) level).

(** The chunks [iterencode] yields, in order; [json.dump] writes them one
    by one.  A string or integer inside a list is yielded together with
    the bracket or separator before it, a container after it. *)
Fixpoint iterencode (o : pyval) (level : nat) {struct o} : list str :=
  let iterencode_list (lst : list pyval) : list str :=
    match lst with
    | [] => [lit "[]"]
    | _ =>
        let nl := newline_indent (S level) in
        (fix items (first : bool) (l : list pyval) {struct l} : list str :=
           match l with
           | [] => []
           | value :: l' =>
               let buf := if first then lit "[" ++ nl else item_separator ++ nl in
               match value with
               | PStr s => [buf ++ encode_basestring ensure_ascii s]
               | PInt n => [buf ++ intstr n]
               | _ => buf :: iterencode value (S level)
               end ++ items false l'
           end) true lst
        ++ [newline_indent level; lit "]"]
    end in
  match o with
  | PStr s => [encode_basestring ensure_ascii s]
  | PInt n => [intstr n]
  | PList lst => iterencode_list lst
  | PTuple lst => iterencode_list lst
  | PDict dct =>
      match dct with
      | [] => [lit "{}"]
      | _ =>
          let nl := newline_indent (S level) in
          [lit "{"; nl]
          ++ (fix items (first : bool) (l : list (str * pyval)) {struct l} : list str :=
                match l with
                | [] => []
                | (key, value) :: l' =>
                    (if first then [] else [item_separator ++ nl])
                    ++ [encode_basestring ensure_ascii key; key_separator]
                    ++ iterencode value (S level)
                    ++ items false l'
                end) true dct
          ++ [newline_indent level; lit "}"]
      end
  end.

(** [json.dumps]: the chunks joined. *)
Definition dumps (o : pyval) : str := concat (iterencode o 0).
End Encoder.

(** ** Text files *)

(** [os.path.dirname]: the path up to its last slash, without the slashes
    that end it unless it consists of slashes only. *)
Definition slash : N := 0x2F.

Fixpoint up_to_last_slash (path : str) : str :=
  match path with
  | [] => []
  | c :: rest =>
      if existsb (N.eqb slash) rest then c :: up_to_last_slash rest
      else if c =? slash then [c] else []
  end.

Fixpoint rstrip_slashes (s : str) : str :=
  match s with
  | [] => []
  | c :: rest =>
      match rstrip_slashes rest with
      | [] => if c =? slash then [] else [c]
      | rest' => c :: rest'
      end
  end.

Definition dirname (path : str) : str :=
  let head := up_to_last_slash path in
  if forallb (N.eqb slash) head then head else rstrip_slashes head.

(** An open text file: where it writes, and the encoding and line ending it
    was opened with. *)
Record TextFile := {
  f_name : str;
  f_encoding : codec;
  f_newline : str
}.

Definition set_files (fs : gmap str bytes) (w : World) : World :=
  {| dirs := dirs w; files := fs; stdout := stdout w; trace := trace w |}.

(** The error of opening a file whose parent is not a directory: the parent
    is a regular file, or it does not exist. *)
Definition missing_parent_error (fs : gmap str bytes) (path : str) : exn :=
  if bool_decide (is_Some (fs !! dirname path))
  then NotADirectoryError path
  else FileNotFoundError path.

(** [open(path, "w")]: the file must lie in an existing directory and must
    not be one itself; it is created or truncated.  No [encoding] and no
    [newline] argument is given, so the platform defaults apply.  The
    errors are named as POSIX names them; refusals for other reasons
    (permissions, a full device) are left out, here and in [file_write]
    and [file_close]. *)
Definition open_w (env : Env) (path : str) : M TextFile :=
  log (EvOpen path) ;;;
  fun w =>
    if negb (bool_decide (dirname path = [])) && negb (bool_decide (dirname path ∈ dirs w))
    then (Raise (missing_parent_error (files w) path), w)
    else if bool_decide (path ∈ dirs w)
    then (Raise (IsADirectoryError path), w)
    else (Ok {| f_name := path;
                f_encoding := preferred_encoding env;
                f_newline := linesep env |},
          set_files (<[path := []]> (files w)) w).

(** On writing, every ['\n'] becomes the file's line ending. *)
Definition translate_newlines (newline : str) (s : str) : str :=
  flat_map (fun c => if c =? 0x0A then newline else [c]) s.

(** A whole chunk is encoded, or the chunk is refused. *)
Definition encode_text (enc : codec) (s : str) : option bytes :=
  @concat N <$> mapM enc s.

(** [f.write(chunk)]. *)
Definition file_write (f : TextFile) (chunk : str) : M unit :=
  log (EvWrite (f_name f) chunk) ;;;
  fun w =>
    match encode_text (f_encoding f) (translate_newlines (f_newline f) chunk) with
    | None => (Raise (UnicodeEncodeError chunk), w)
    | Some bs =>
        (Ok tt, set_files (<[f_name f := default [] (files w !! f_name f) ++ bs]> (files w)) w)
    end.

(** [f.close()]: what was written is in the file already. *)
Definition file_close (f : TextFile) : M unit := log (EvClose (f_name f)).

(** [with open(path, "w") as f: body]: the file is closed on the way out,
    whether the body returns or raises. *)
Definition with_open_w {A} (env : Env) (path : str) (body : TextFile -> M A) : M A :=
  f <- open_w env path ;;
  fun w =>
    let (r, w1) := body f w in
    let (_, w2) := file_close f w1 in
    (r, w2).

(** [for chunk in iterable: fp.write(chunk)]. *)
Fixpoint write_chunks (fp : TextFile) (chunks : list str) : M unit :=
  match chunks with
  | [] => ret tt
  | chunk :: rest => file_write fp chunk ;;; write_chunks fp rest
  end.

Definition json_dump (obj : pyval) (fp : TextFile) (indent : nat) (ensure_ascii : bool)
    : M unit :=
  write_chunks fp (iterencode indent ensure_ascii obj 0).

(** [print(line)]. *)
Definition print (line : str) : M unit :=
  log (EvPrint line) ;;;
  fun w => (Ok tt, {| dirs := dirs w; files := files w;
                      stdout := stdout w ++ line ++ [0x0A]; trace := trace w |}).

(** ** The script: [main] *)

(** The dict of one record, keys in the order of the dict display.  The
    offsets are the library's pairs, which JSON writes as arrays. *)
Definition record_py (r : GoldenRecord) : pyval :=
  PDict [ (lit "input", PStr (input r));
          (lit "token_ids", PList (map PInt (token_ids r)));
          (lit "offsets", PList (map (fun p => PTuple [PInt (fst p); PInt (snd p)]) (offsets r)));
          (lit "tokens", PList (map PStr (tokens r))) ].

Definition results_py (results : list GoldenRecord) : pyval :=
  PList (map record_py results).

Definition model_name : str := lit "xlm-roberta-base".
Definition golden_path : str := lit "testdata/tokenizer_golden.json".

Definition main (env : Env) : M unit :=
  tok <- AutoTokenizer_from_pretrained env model_name ;;
  results <- main_loop tok test_cases [] ;;
  with_open_w env golden_path
    (fun f => json_dump (results_py results) f 2 false) ;;;
  print (lit "Generated " ++ intstr (len results) ++ lit " test cases").

(** [if __name__ == "__main__": main()]: the exit status of the process is
    0 when [main] returns and 1 when an exception leaves it. *)
Definition script (env : Env) (w : World) : Z * World :=
  match main env w with
  | (Ok _, w') => (0%Z, w')
  | (Raise _, w') => (1%Z, w')
  end.

(** ** Vocabulary of the properties *)

Definition add_events (evs : list event) (w : World) : World :=
  {| dirs := dirs w; files := files w; stdout := stdout w; trace := trace w ++ evs |}.

(** The two library calls behind one record. *)
Definition record_calls (r : GoldenRecord) : list event :=
  [EvEncode (input r) true false; EvConvertIds (token_ids r)].

(** [r] is what one round of the loop makes of [text]: its fields are the
    values the two calls return. *)
Definition produced (tok : Tokenizer) (text : str) (r : GoldenRecord) : Prop :=
  exists enc,
    tok_call tok text true false = Ok enc /\
    convert_ids_to_tokens tok (input_ids enc) = Ok (tokens r) /\
    input r = text /\
    token_ids r = input_ids enc /\
    offsets r = offset_mapping enc.

(** Round [text] of the loop raises [e], having logged [evs]. *)
Definition round_fails (tok : Tokenizer) (text : str) (e : exn) (evs : list event) : Prop :=
  (tok_call tok text true false = Raise e /\ evs = [EvEncode text true false]) \/
  (exists enc, tok_call tok text true false = Ok enc /\
               convert_ids_to_tokens tok (input_ids enc) = Raise e /\
               evs = [EvEncode text true false; EvConvertIds (input_ids enc)]).

(** The load or some round of the loop raises. *)
Definition tokenizer_stage_fails (env : Env) : Prop :=
  (exists e, from_pretrained env model_name = Raise e) \/
  (exists tok text e fevs,
     from_pretrained env model_name = Ok tok /\ text ∈ test_cases /\
     round_fails tok text e fevs).

Definition is_tokenizer_event (ev : event) : bool :=
  match ev with
  | EvFromPretrained _ | EvEncode _ _ _ | EvConvertIds _ => true
  | _ => false
  end.

Definition is_file_event (ev : event) : bool :=
  match ev with
  | EvOpen _ | EvWrite _ _ | EvClose _ => true
  | _ => false
  end.

(** The encode calls made for [text], with their flags. *)
Definition encode_calls (text : str) (evs : list event) : list (bool * bool) :=
  omap (fun ev => match ev with
                  | EvEncode t ro ast => if bool_decide (t = text) then Some (ro, ast) else None
                  | _ => None
                  end) evs.

(** The text handed to [write] for [path], in order. *)
Definition text_written (path : str) (evs : list event) : str :=
  concat (omap (fun ev => match ev with
                          | EvWrite p chunk => if bool_decide (p = path) then Some chunk else None
                          | _ => None
                          end) evs).

(** The offset contract of the tokenizer library, on the offsets of one
    text: starts and ends never decrease along the sequence, and every pair
    lies inside the text. *)
Fixpoint nondecreasing (offs : list (Z * Z)) : bool :=
  match offs with
  | p :: (q :: _) as rest =>
      (fst p <=? fst q)%Z && (snd p <=? snd q)%Z && nondecreasing rest
  | _ => true
  end.

Definition within (n : Z) (p : Z * Z) : bool :=
  (fst p <=? snd p)%Z && (snd p <=? n)%Z.

Definition offsets_ok (text : str) (offs : list (Z * Z)) : bool :=
  nondecreasing offs && forallb (within (len text)) offs.

(** *** The layout of the document, written out

    The document as the format describes it: two more spaces per nesting
    level, one item per line, characters beyond ASCII as they are. *)

Definition dq : N := 0x22.

(** A line break followed by [k] spaces. *)
Definition line (k : nat) : str := [0x0A] ++ repeat 0x20 k.

Fixpoint join (sep : str) (items : list str) : str :=
  match items with
  | [] => []
  | [x] => x
  | x :: rest => x ++ sep ++ join sep rest
  end.

(** One character of a string: only the quote, the backslash and the
    control characters are escaped. *)
Definition spec_char (c : N) : str :=
  if 0x80 <=? c then [c]
  else if 0x20 <=? c then
    (if (c =? dq) || (c =? 0x5C) then [0x5C; c] else [c])
  else if c =? 0x08 then lit "\b"
  else if c =? 0x09 then lit "\t"
  else if c =? 0x0A then lit "\n"
  else if c =? 0x0C then lit "\f"
  else if c =? 0x0D then lit "\r"
  else lit "\u00" ++ [hex_digit (c / 16); hex_digit (c mod 16)].

Definition spec_string (s : str) : str := [dq] ++ flat_map spec_char s ++ [dq].

(** An array whose brackets stand at [pad] spaces: items at [pad + 2]. *)
Definition spec_array (pad : nat) (items : list str) : str :=
  match items with
  | [] => lit "[]"
  | _ => lit "[" ++ line (pad + 2) ++ join (lit "," ++ line (pad + 2)) items
         ++ line pad ++ lit "]"
  end.

Definition spec_key (name : string) : str := [dq] ++ lit name ++ [dq] ++ lit ": ".

Definition spec_record (r : GoldenRecord) : str :=
  lit "{" ++ line 4
  ++ spec_key "input" ++ spec_string (input r) ++ lit "," ++ line 4
  ++ spec_key "token_ids" ++ spec_array 4 (map intstr (token_ids r)) ++ lit "," ++ line 4
  ++ spec_key "offsets"
  ++ spec_array 4 (map (fun p => spec_array 6 [intstr (fst p); intstr (snd p)]) (offsets r))
  ++ lit "," ++ line 4
  ++ spec_key "tokens" ++ spec_array 4 (map spec_string (tokens r))
  ++ line 2 ++ lit "}".

Definition spec_document (results : list GoldenRecord) : str :=
  spec_array 0 (map spec_record results).

(** *** The stages and the outcomes of a run *)

(** What [main] does once the loop has returned [results]. *)
Definition write_stage (env : Env) (results : list GoldenRecord) : M unit :=
  with_open_w env golden_path
    (fun f => json_dump (results_py results) f 2 false) ;;;
  print (lit "Generated " ++ intstr (len results) ++ lit " test cases").

Definition final_line (results : list GoldenRecord) : str :=
  lit "Generated " ++ intstr (len results) ++ lit " test cases".

Definition load_events : list event := [EvFromPretrained model_name].

(** The ways a run of [main] from [w] ends in the exception [e] and the
    world [w']: the load fails, a round of the loop fails, the file cannot
    be opened, or a chunk cannot be encoded. *)
Inductive failed_run (env : Env) (w : World) (e : exn) (w' : World) : Prop :=
| LoadFailed :
    from_pretrained env model_name = Raise e ->
    w' = add_events load_events w ->
    failed_run env w e w'
| RoundFailed tok recs text fevs :
    from_pretrained env model_name = Ok tok ->
    Forall2 (produced tok) (take (length recs) test_cases) recs ->
    test_cases !! length recs = Some text ->
    round_fails tok text e fevs ->
    w' = add_events (load_events ++ flat_map record_calls recs ++ fevs) w ->
    failed_run env w e w'
| OpenFailed tok results :
    from_pretrained env model_name = Ok tok ->
    Forall2 (produced tok) test_cases results ->
    (e = missing_parent_error (files w) golden_path /\ (dirname golden_path ∉ dirs w) \/
     e = IsADirectoryError golden_path /\ golden_path ∈ dirs w) ->
    w' = add_events (load_events ++ flat_map record_calls results ++ [EvOpen golden_path]) w ->
    failed_run env w e w'
| WriteFailed tok results written chunk rest :
    from_pretrained env model_name = Ok tok ->
    Forall2 (produced tok) test_cases results ->
    dirname golden_path ∈ dirs w -> golden_path ∉ dirs w ->
    e = UnicodeEncodeError chunk ->
    encode_text (preferred_encoding env) (translate_newlines (linesep env) chunk) = None ->
    iterencode 2 false (results_py results) 0 = written ++ rest ->
    last written = Some chunk ->
    dirs w' = dirs w -> stdout w' = stdout w ->
    (forall p, p <> golden_path -> files w' !! p = files w !! p) ->
    trace w' = trace w ++ load_events ++ flat_map record_calls results
               ++ [EvOpen golden_path] ++ map (EvWrite golden_path) written
               ++ [EvClose golden_path] ->
    failed_run env w e w'.

(** The two inner loops of [iterencode], named. *)
Definition list_items (indent : nat) (ensure_ascii : bool) (level : nat)
    : bool -> list pyval -> list str :=
  fix items (first : bool) (l : list pyval) {struct l} : list str :=
    match l with
    | [] => []
    | value :: l' =>
        let buf := if first then lit "[" ++ newline_indent indent (S level)
                   else item_separator ++ newline_indent indent (S level) in
        match value with
        | PStr s => [buf ++ encode_basestring ensure_ascii s]
        | PInt n => [buf ++ intstr n]
        | _ => buf :: iterencode indent ensure_ascii value (S level)
        end ++ items false l'
    end.

Definition dict_items (indent : nat) (ensure_ascii : bool) (level : nat)
    : bool -> list (str * pyval) -> list str :=
  fix items (first : bool) (l : list (str * pyval)) {struct l} : list str :=
    match l with
    | [] => []
    | (key, value) :: l' =>
        (if first then [] else [item_separator ++ newline_indent indent (S level)])
        ++ [encode_basestring ensure_ascii key; key_separator]
        ++ iterencode indent ensure_ascii value (S level)
        ++ items false l'
    end.

(** ** Concrete codecs, tokenizers and worlds

    Used to run the script on explicit inputs. *)

(** UTF-8, strict: surrogates and values past U+10FFFF are refused. *)
Definition utf_8 : codec := fun c =>
  if c <? 0x80 then Some [c]
  else if c <? 0x800 then
    Some [N.lor 0xC0 (N.shiftr c 6); N.lor 0x80 (N.land c 0x3F)]
  else if c <? 0x10000 then
    if (0xD800 <=? c) && (c <? 0xE000) then None
    else Some [N.lor 0xE0 (N.shiftr c 12);
               N.lor 0x80 (N.land (N.shiftr c 6) 0x3F);
               N.lor 0x80 (N.land c 0x3F)]
  else if c <? 0x110000 then
    Some [N.lor 0xF0 (N.shiftr c 18);
          N.lor 0x80 (N.land (N.shiftr c 12) 0x3F);
          N.lor 0x80 (N.land (N.shiftr c 6) 0x3F);
          N.lor 0x80 (N.land c 0x3F)]
  else None.

(** Windows code page 1252: one byte per character, for the characters it
    has. *)
Definition cp1252_high : list (N * N) := [
  (0x20AC, 0x80); (0x201A, 0x82); (0x0192, 0x83); (0x201E, 0x84);
  (0x2026, 0x85); (0x2020, 0x86); (0x2021, 0x87); (0x02C6, 0x88);
  (0x2030, 0x89); (0x0160, 0x8A); (0x2039, 0x8B); (0x0152, 0x8C);
  (0x017D, 0x8E); (0x2018, 0x91); (0x2019, 0x92); (0x201C, 0x93);
  (0x201D, 0x94); (0x2022, 0x95); (0x2013, 0x96); (0x2014, 0x97);
  (0x02DC, 0x98); (0x2122, 0x99); (0x0161, 0x9A); (0x203A, 0x9B);
  (0x0153, 0x9C); (0x017E, 0x9E); (0x0178, 0x9F) ].

Definition cp1252 : codec := fun c =>
  if c <? 0x80 then Some [c]
  else if (0xA0 <=? c) && (c <? 0x100) then Some [c]
  else match find (fun p => fst p =? c) cp1252_high with
       | Some p => Some [snd p]
       | None => None
       end.

(** ISO 8859-1: the characters below 256, one byte each. *)
Definition latin_1 : codec := fun c => if c <? 0x100 then Some [c] else None.

(** A tokenizer with one token per non-empty text: the token spans the
    text, its id is the length of the text and its string the decimal of
    the id.  With special tokens it brackets the ids with 0 and 2, at
    offsets [(0, 0)]. *)
Definition span_tokenizer : Tokenizer := {|
  tok_call := fun text return_offsets_mapping add_special_tokens =>
    let ids := match text with [] => [] | _ => [len text] end in
    let offs := match text with [] => [] | _ => [(0, len text)%Z] end in
    Ok {| input_ids := if add_special_tokens then [0%Z] ++ ids ++ [2%Z] else ids;
          offset_mapping :=
            if return_offsets_mapping
            then (if add_special_tokens then [(0, 0)%Z] ++ offs ++ [(0, 0)%Z] else offs)
            else [] |};
  convert_ids_to_tokens := fun ids => Ok (map intstr ids)
|}.

Definition hub (name : str) : result Tokenizer :=
  if bool_decide (name = model_name) then Ok span_tokenizer
  else Raise (LibraryError name).

Definition posix_utf8 : Env :=
  {| from_pretrained := hub; preferred_encoding := utf_8; linesep := [0x0A] |}.

Definition posix_latin1 : Env :=
  {| from_pretrained := hub; preferred_encoding := latin_1; linesep := [0x0A] |}.

Definition windows_cp1252 : Env :=
  {| from_pretrained := hub; preferred_encoding := cp1252; linesep := [0x0D; 0x0A] |}.

Definition offline : Env :=
  {| from_pretrained := fun name => Raise (LibraryError name);
     preferred_encoding := utf_8; linesep := [0x0A] |}.

(** A working directory that holds [testdata/], and one that does not. *)
Definition w_ready : World :=
  {| dirs := {[ lit "testdata" ]}; files := ∅; stdout := []; trace := [] |}.

Definition w_bare : World :=
  {| dirs := ∅; files := ∅; stdout := []; trace := [] |}.

(** The records the span tokenizer gives, and the worlds the runs on the
    sample worlds end in. *)
Definition span_record (text : str) : GoldenRecord :=
  {| input := text;
     token_ids := match text with [] => [] | _ => [len text] end;
     offsets := match text with [] => [] | _ => [(0, len text)%Z] end;
     tokens := match text with [] => [] | _ => [intstr (len text)] end |}.

Definition span_results : list GoldenRecord := map span_record test_cases.

Definition w_looped : World := add_events (flat_map record_calls span_results) w_ready.

Definition w_done : World := snd (main posix_utf8 w_ready).

(** A working directory left by an earlier run: the file is there already,
    with other contents, and something has been printed. *)
Definition w_stale : World :=
  {| dirs := {[ lit "testdata"; lit "scripts" ]};
     files := {[ golden_path := lit "[]"; lit "go.mod" := lit "module go-sat" ]};
     stdout := lit "ok";
     trace := [EvPrint (lit "ok")] |}.

Definition w_win : World := snd (main windows_cp1252 w_ready).

Definition w_redone : World := snd (main posix_utf8 w_stale).

Definition w_offline : World := add_events [EvFromPretrained model_name] w_ready.

Definition w_no_dir : World :=
  add_events ([EvFromPretrained model_name] ++ flat_map record_calls span_results
              ++ [EvOpen golden_path]) w_bare.

(** ** Vocabulary of the further properties *)

(** A call to the outside that the script can make: the load of its model,
    an encode call on a test case with offsets requested and special tokens
    off, an id resolution, an operation on its one file, a print. *)
Definition script_event (ev : event) : Prop :=
  match ev with
  | EvFromPretrained name => name = model_name
  | EvEncode text ro ast => text ∈ test_cases /\ ro = true /\ ast = false
  | EvConvertIds _ => True
  | EvOpen path | EvWrite path _ | EvClose path => path = golden_path
  | EvPrint _ => True
  end.

(** A Unicode scalar value: a code point that is not a surrogate. *)
Definition scalar (c : N) : bool :=
  (c <? 0xD800) || ((0xE000 <=? c) && (c <? 0x110000)).

(** The span tokenizer without its special tokens: it ignores the flag. *)
Definition plain_tokenizer : Tokenizer := {|
  tok_call := fun text return_offsets_mapping _ =>
    Ok {| input_ids := match text with [] => [] | _ => [len text] end;
          offset_mapping :=
            if return_offsets_mapping
            then match text with [] => [] | _ => [(0, len text)%Z] end
            else [] |};
  convert_ids_to_tokens := fun ids => Ok (map intstr ids)
|}.

(** The span tokenizer with a vocabulary of ASCII only: it raises on a text
    with any other character. *)
Definition ascii_tokenizer : Tokenizer := {|
  tok_call := fun text return_offsets_mapping add_special_tokens =>
    if forallb (fun c => c <? 0x80) text
    then tok_call span_tokenizer text return_offsets_mapping add_special_tokens
    else Raise (LibraryError text);
  convert_ids_to_tokens := convert_ids_to_tokens span_tokenizer
|}.

Definition posix_plain : Env :=
  {| from_pretrained := fun _ => Ok plain_tokenizer;
     preferred_encoding := utf_8; linesep := [0x0A] |}.

Definition posix_ascii_vocab : Env :=
  {| from_pretrained := fun _ => Ok ascii_tokenizer;
     preferred_encoding := utf_8; linesep := [0x0A] |}.


(** An ASCII character that is not a control character. *)
Definition printable (c : N) : bool := (0x20 <=? c) && (c <? 0x80).

(** Platforms that differ from [posix_utf8] in one default only. *)
Definition posix_cp1252 : Env :=
  {| from_pretrained := hub; preferred_encoding := cp1252; linesep := [0x0A] |}.

Definition windows_utf8 : Env :=
  {| from_pretrained := hub; preferred_encoding := utf_8; linesep := [0x0D; 0x0A] |}.

(** The number of line feeds in a text. *)
Definition line_feeds (s : str) : nat := count_occ N.eq_dec s 0x0A.

(** The line feeds the layout puts around the [n] items of an array. *)
Definition array_line_feeds (n : nat) : nat :=
  match n with O => O | S _ => S n end.

(** The line feeds of a record and of the document, counted from the
    numbers of ids, offsets, tokens and records alone. *)
Definition record_line_feeds (r : GoldenRecord) : nat :=
  5 + array_line_feeds (length (token_ids r))
    + (array_line_feeds (length (offsets r)) + 3 * length (offsets r))
    + array_line_feeds (length (tokens r)).

Definition document_line_feeds (results : list GoldenRecord) : nat :=
  array_line_feeds (length results) + list_sum (map record_line_feeds results).

(** The world [w_stale] has become when the loop of a run is over. *)
Definition w_tokenized : World :=
  add_events (flat_map record_calls span_results)
    (add_events [EvFromPretrained model_name] w_stale).

(** * Properties *)

(** ** The monad and the log *)

Lemma add_events_nil w : add_events [] w = w.
Proof. destruct w; unfold add_events; simpl. by rewrite app_nil_r. Qed.

Lemma add_events_app evs1 evs2 w :
  add_events evs2 (add_events evs1 w) = add_events (evs1 ++ evs2) w.
Proof. unfold add_events; simpl. by rewrite app_assoc. Qed.

(** ** The loop *)

Section Loop.
Variable tok : Tokenizer.

Lemma main_loop_inv cases : forall acc w r w',
  main_loop tok cases acc w = (r, w') ->
  exists recs evs,
    w' = add_events evs w /\
    Forall2 (produced tok) (take (length recs) cases) recs /\
    match r with
    | Ok results =>
        results = acc ++ recs /\ length recs = length cases /\
        evs = flat_map record_calls recs
    | Raise e =>
        exists text fevs,
          cases !! length recs = Some text /\
          round_fails tok text e fevs /\
          evs = flat_map record_calls recs ++ fevs
    end.
Proof.
  induction cases as [|text rest IH]; intros acc w r w' Hrun.
  - injection Hrun as <- <-. exists [], []. rewrite add_events_nil, app_nil_r.
    split_and!; by try constructor.
  - cbn in Hrun. unfold bind, tok_encode, tok_convert_ids_to_tokens, bind, log, call in Hrun.
    cbn in Hrun.
    destruct (tok_call tok text true false) as [enc|e] eqn:Henc.
    + destruct (convert_ids_to_tokens tok (input_ids enc)) as [toks|e] eqn:Hconv.
      * apply IH in Hrun as (recs & evs & -> & Hrecs & Hr).
        set (r0 := {| input := text; token_ids := input_ids enc;
                      offsets := offset_mapping enc; tokens := toks |}) in *.
        exists (r0 :: recs), (record_calls r0 ++ evs). split; [|split].
        -- unfold add_events; cbn. by rewrite <- !app_assoc.
        -- cbn. constructor; [|done]. exists enc. by split_and!.
        -- destruct r as [results|e].
           ++ destruct Hr as (-> & Hlen & ->). cbn. rewrite <- app_assoc.
              split_and!; [done | by f_equal | done].
           ++ destruct Hr as (text' & fevs & Hlook & Hfail & ->).
              exists text', fevs. cbn. by split_and!.
      * injection Hrun as <- <-. exists [], [EvEncode text true false; EvConvertIds (input_ids enc)].
        split; [|split].
        -- unfold add_events; cbn. by rewrite <- app_assoc.
        -- constructor.
        -- exists text, [EvEncode text true false; EvConvertIds (input_ids enc)].
           split_and!; [done| |done]. right. by exists enc.
    + injection Hrun as <- <-. exists [], [EvEncode text true false].
      split; [done|split]; [constructor|].
      exists text, [EvEncode text true false]. split_and!; [done| |done]. by left.
Qed.
End Loop.

(** ** Text encoding *)

Lemma encode_text_nil (enc : codec) : encode_text enc [] = Some [].
Proof. reflexivity. Qed.

Lemma encode_text_cons (enc : codec) c s :
  encode_text enc (c :: s) =
  match enc c, encode_text enc s with
  | Some b, Some bs => Some (b ++ bs)
  | _, _ => None
  end.
Proof.
  unfold encode_text. cbn. destruct (enc c) as [b|]; cbn; [|done].
  by destruct (mapM enc s).
Qed.

Lemma encode_text_app (enc : codec) s1 s2 :
  encode_text enc (s1 ++ s2) =
  match encode_text enc s1, encode_text enc s2 with
  | Some b1, Some b2 => Some (b1 ++ b2)
  | _, _ => None
  end.
Proof.
  induction s1 as [|c s1 IH]; cbn [app].
  - rewrite encode_text_nil. by destruct (encode_text enc s2).
  - rewrite !encode_text_cons, IH. destruct (enc c) as [b|]; [|done].
    destruct (encode_text enc s1) as [b1|]; [|done].
    destruct (encode_text enc s2) as [b2|]; [|done].
    by rewrite app_assoc.
Qed.

Lemma translate_newlines_app nl s1 s2 :
  translate_newlines nl (s1 ++ s2) = translate_newlines nl s1 ++ translate_newlines nl s2.
Proof. apply flat_map_app. Qed.

Lemma translate_newlines_lf s : translate_newlines [0x0A] s = s.
Proof.
  unfold translate_newlines. induction s as [|c s IH]; [done|].
  cbn [flat_map]. rewrite IH. destruct (N.eqb_spec c 0x0A); by subst.
Qed.

(** ** Writing the chunks *)

Lemma write_chunks_frame f chunks : forall w r w',
  write_chunks f chunks w = (r, w') ->
  dirs w' = dirs w /\ stdout w' = stdout w /\
  (forall p, p <> f_name f -> files w' !! p = files w !! p) /\
  exists written, trace w' = trace w ++ map (EvWrite (f_name f)) written /\
    match r with
    | Ok _ => written = chunks
    | Raise e =>
        exists chunk, e = UnicodeEncodeError chunk /\
          encode_text (f_encoding f) (translate_newlines (f_newline f) chunk) = None /\
          exists rest, chunks = written ++ rest /\ last written = Some chunk
    end.
Proof.
  induction chunks as [|chunk rest IH]; intros w r w' Hrun.
  - injection Hrun as <- <-. split_and!; try done. exists []. by rewrite app_nil_r.
  - cbn in Hrun. unfold bind, file_write, bind, log in Hrun. cbn in Hrun.
    destruct (encode_text _ _) as [bs|] eqn:Henc.
    + apply IH in Hrun as (Hd & Hs & Hf & written & Ht & Hr). cbn in *.
      split_and!; try done.
      * intros p Hp. rewrite Hf by done. by rewrite lookup_insert_ne.
      * exists (chunk :: written). cbn. rewrite Ht, <- app_assoc. split; [done|].
        destruct r as [[]|e]; [by subst|].
        destruct Hr as (c & -> & Hnone & rest' & -> & Hlast).
        exists c. split_and!; try done. exists rest'. split; [done|].
        destruct written; [done|]. done.
    + injection Hrun as <- <-. cbn. split_and!; try done.
      exists [chunk]. split; [done|]. exists chunk. split_and!; try done.
      by exists rest.
Qed.

Lemma write_chunks_ok f chunks : forall w w' old,
  files w !! f_name f = Some old ->
  write_chunks f chunks w = (Ok tt, w') ->
  exists bs,
    encode_text (f_encoding f) (translate_newlines (f_newline f) (concat chunks)) = Some bs /\
    files w' = <[f_name f := old ++ bs]> (files w).
Proof.
  induction chunks as [|chunk rest IH]; intros w w' old Hold Hrun.
  - injection Hrun as <-. exists []. rewrite app_nil_r. split; [done|].
    by rewrite insert_id.
  - cbn in Hrun. unfold bind, file_write, bind, log in Hrun. cbn in Hrun.
    destruct (encode_text _ (translate_newlines _ chunk)) as [bs|] eqn:Henc; [|done].
    rewrite Hold in Hrun. cbn in Hrun.
    eapply IH in Hrun as (bs' & Henc' & Hfiles); [|cbn; apply lookup_insert_eq].
    exists (bs ++ bs'). cbn [concat]. rewrite translate_newlines_app, encode_text_app, Henc, Henc'.
    split; [done|]. rewrite Hfiles. cbn. by rewrite insert_insert_eq, app_assoc.
Qed.

Lemma write_chunks_run f chunks : forall w old bs,
  files w !! f_name f = Some old ->
  encode_text (f_encoding f) (translate_newlines (f_newline f) (concat chunks)) = Some bs ->
  exists w', write_chunks f chunks w = (Ok tt, w').
Proof.
  induction chunks as [|chunk rest IH]; intros w old bs Hold Henc.
  - by eexists.
  - cbn [concat] in Henc. rewrite translate_newlines_app, encode_text_app in Henc.
    destruct (encode_text _ (translate_newlines _ chunk)) as [b1|] eqn:H1; [|done].
    destruct (encode_text _ (translate_newlines _ (concat rest))) as [b2|] eqn:H2; [|done].
    cbn. unfold bind, file_write, bind, log. cbn. rewrite H1, Hold. cbn.
    eapply IH; [|done]. cbn. apply lookup_insert_eq.
Qed.

Lemma dirname_golden_path : dirname golden_path = lit "testdata".
Proof. reflexivity. Qed.

Lemma dirname_golden_path_nonempty : dirname golden_path <> [].
Proof. by rewrite dirname_golden_path. Qed.

(** ** The stages of [main] *)

Lemma main_unfold env w :
  main env w =
  match from_pretrained env model_name with
  | Raise e => (Raise e, add_events [EvFromPretrained model_name] w)
  | Ok tok =>
      match main_loop tok test_cases [] (add_events [EvFromPretrained model_name] w) with
      | (Ok results, w1) => write_stage env results w1
      | (Raise e, w1) => (Raise e, w1)
      end
  end.
Proof.
  unfold main, bind at 1, AutoTokenizer_from_pretrained, bind at 1, log, call.
  change {| dirs := dirs w; files := files w; stdout := stdout w;
            trace := trace w ++ [EvFromPretrained model_name] |}
    with (add_events [EvFromPretrained model_name] w).
  destruct (from_pretrained env model_name) as [tok|e]; [|done].
  unfold bind at 1. by destruct (main_loop _ _ _ _) as [[results|e] w1].
Qed.

Lemma open_w_golden env w :
  open_w env golden_path w =
  if bool_decide (dirname golden_path ∈ dirs w)
  then if bool_decide (golden_path ∈ dirs w)
       then (Raise (IsADirectoryError golden_path), add_events [EvOpen golden_path] w)
       else (Ok {| f_name := golden_path; f_encoding := preferred_encoding env;
                   f_newline := linesep env |},
             set_files (<[golden_path := []]> (files w)) (add_events [EvOpen golden_path] w))
  else (Raise (missing_parent_error (files w) golden_path),
        add_events [EvOpen golden_path] w).
Proof.
  unfold open_w, bind, log.
  change {| dirs := dirs w; files := files w; stdout := stdout w;
            trace := trace w ++ [EvOpen golden_path] |}
    with (add_events [EvOpen golden_path] w).
  rewrite (bool_decide_eq_false_2 _ dirname_golden_path_nonempty).
  change (dirs (add_events [EvOpen golden_path] w)) with (dirs w).
  change (negb false) with true. rewrite andb_true_l.
  by destruct (bool_decide (dirname golden_path ∈ dirs w)).
Qed.

Lemma main_loop_test_cases tok w r w1 :
  main_loop tok test_cases [] w = (r, w1) ->
  match r with
  | Ok results =>
      Forall2 (produced tok) test_cases results /\
      w1 = add_events (flat_map record_calls results) w
  | Raise e =>
      exists recs text fevs,
        Forall2 (produced tok) (take (length recs) test_cases) recs /\
        test_cases !! length recs = Some text /\
        round_fails tok text e fevs /\
        w1 = add_events (flat_map record_calls recs ++ fevs) w
  end.
Proof.
  intros (recs & evs & -> & Hrecs & Hr)%main_loop_inv. destruct r as [results|e].
  - destruct Hr as (-> & Hlen & ->). split; [|done].
    by rewrite Hlen, firstn_all in Hrecs.
  - destruct Hr as (text & fevs & Hlook & Hfail & ->). by exists recs, text, fevs.
Qed.

Lemma write_stage_inv env results w r w' :
  write_stage env results w = (r, w') ->
  match r with
  | Ok _ =>
      exists bs,
        dirname golden_path ∈ dirs w /\ (golden_path ∉ dirs w) /\
        encode_text (preferred_encoding env)
          (translate_newlines (linesep env) (dumps 2 false (results_py results))) = Some bs /\
        dirs w' = dirs w /\
        files w' = <[golden_path := bs]> (files w) /\
        stdout w' = stdout w ++ final_line results ++ [0x0A] /\
        trace w' = trace w ++ [EvOpen golden_path]
                   ++ map (EvWrite golden_path) (iterencode 2 false (results_py results) 0)
                   ++ [EvClose golden_path; EvPrint (final_line results)]
  | Raise e =>
      dirs w' = dirs w /\ stdout w' = stdout w /\
      (forall p, p <> golden_path -> files w' !! p = files w !! p) /\
      ((e = missing_parent_error (files w) golden_path /\ (dirname golden_path ∉ dirs w) \/
        e = IsADirectoryError golden_path /\ golden_path ∈ dirs w) /\
       w' = add_events [EvOpen golden_path] w
       \/
       exists written chunk rest,
         dirname golden_path ∈ dirs w /\ (golden_path ∉ dirs w) /\
         e = UnicodeEncodeError chunk /\
         encode_text (preferred_encoding env) (translate_newlines (linesep env) chunk) = None /\
         iterencode 2 false (results_py results) 0 = written ++ rest /\
         last written = Some chunk /\
         trace w' = trace w ++ [EvOpen golden_path] ++ map (EvWrite golden_path) written
                    ++ [EvClose golden_path])
  end.
Proof.
  unfold write_stage, bind at 1, with_open_w, bind at 1. rewrite open_w_golden.
  case_bool_decide as Hdir.
  2:{ intros [= <- <-]. split_and!; try done. left. split; [by left|done]. }
  case_bool_decide as Hisdir.
  { intros [= <- <-]. split_and!; try done. left. split; [by right|done]. }
  unfold json_dump, file_close.
  set (f := {| f_name := golden_path; f_encoding := preferred_encoding env;
               f_newline := linesep env |}).
  set (w0 := set_files _ _).
  destruct (write_chunks f _ w0) as [[[]|e] w1] eqn:Hw.
  - unfold log, print, bind, log. cbn. intros [= <- <-]. cbn.
    pose proof Hw as (bs & Henc & Hfiles)%(write_chunks_ok _ _ _ _ []);
      [|apply lookup_insert_eq].
    apply write_chunks_frame in Hw as (Hd & Hs & _ & written & Ht & ->).
    exists bs. split_and!; try done.
    + rewrite Hfiles. cbn. by rewrite insert_insert_eq.
    + by rewrite Hs.
    + rewrite Ht. cbn. by rewrite <- !app_assoc.
  - unfold log. cbn. intros [= <- <-]. cbn.
    apply write_chunks_frame in Hw
      as (Hd & Hs & Hf & written & Ht & chunk & -> & Hnone & rest & Hsplit & Hlast).
    split_and!; try done.
    + intros p Hp. rewrite Hf by done. cbn. by rewrite lookup_insert_ne.
    + right. exists written, chunk, rest. split_and!; try done.
      rewrite Ht. cbn. by rewrite <- !app_assoc.
Qed.

(** ** Runs of [main] *)

Lemma main_ok_inv env w w' :
  main env w = (Ok tt, w') ->
  exists tok results bs,
    from_pretrained env model_name = Ok tok /\
    Forall2 (produced tok) test_cases results /\
    dirname golden_path ∈ dirs w /\ (golden_path ∉ dirs w) /\
    encode_text (preferred_encoding env)
      (translate_newlines (linesep env) (dumps 2 false (results_py results))) = Some bs /\
    dirs w' = dirs w /\
    files w' = <[golden_path := bs]> (files w) /\
    stdout w' = stdout w ++ final_line results ++ [0x0A] /\
    trace w' = trace w ++ load_events ++ flat_map record_calls results
               ++ [EvOpen golden_path]
               ++ map (EvWrite golden_path) (iterencode 2 false (results_py results) 0)
               ++ [EvClose golden_path; EvPrint (final_line results)].
Proof.
  rewrite main_unfold. destruct (from_pretrained env model_name) as [tok|e]; [|done].
  destruct (main_loop _ _ _ _) as [[results|e] w1] eqn:Hloop; [|done].
  apply main_loop_test_cases in Hloop as [Hrecs ->].
  intros (bs & Hdir & Hnd & Henc & Hd & Hf & Hs & Ht)%write_stage_inv.
  exists tok, results, bs. split_and!; try done.
  rewrite Ht. cbn. by rewrite <- !app_assoc.
Qed.

Lemma main_raise_inv env w e w' :
  main env w = (Raise e, w') -> failed_run env w e w'.
Proof.
  rewrite main_unfold. destruct (from_pretrained env model_name) as [tok|e0] eqn:Hload.
  2:{ intros [= <- <-]. by apply LoadFailed. }
  destruct (main_loop _ _ _ _) as [[results|e0] w1] eqn:Hloop.
  - apply main_loop_test_cases in Hloop as [Hrecs ->].
    intros (Hd & Hs & Hf & [[He ->]|Hwrite])%write_stage_inv.
    + eapply OpenFailed; [done..|]. by rewrite !add_events_app.
    + destruct Hwrite as (written & chunk & rest & Hdir & Hnd & -> & Hnone & Hsplit & Hlast & Ht).
      eapply WriteFailed; try done.
      rewrite Ht. cbn. by rewrite <- !app_assoc.
  - apply main_loop_test_cases in Hloop as (recs & text & fevs & Hrecs & Hlook & Hfail & ->).
    intros [= <- <-]. eapply RoundFailed; [done..|].
    by rewrite add_events_app.
Qed.

Lemma failed_run_frame env w e w' :
  failed_run env w e w' ->
  dirs w' = dirs w /\ stdout w' = stdout w /\
  (forall p, p <> golden_path -> files w' !! p = files w !! p) /\
  exists evs, trace w' = trace w ++ evs.
Proof.
  intros [? ->|???? _ _ _ _ ->|?? _ _ _ ->|????? _ _ _ _ _ _ _ _ Hd Hs Hf Ht];
    split_and!; try done; by eexists.
Qed.

(** ** The layout of the document *)

Section Layout.
Variable indent : nat.
Variable ensure_ascii : bool.

Lemma iterencode_list lst level :
  iterencode indent ensure_ascii (PList lst) level =
  match lst with
  | [] => [lit "[]"]
  | _ => list_items indent ensure_ascii level true lst
         ++ [newline_indent indent level; lit "]"]
  end.
Proof. by destruct lst. Qed.

Lemma iterencode_tuple lst level :
  iterencode indent ensure_ascii (PTuple lst) level =
  iterencode indent ensure_ascii (PList lst) level.
Proof. by destruct lst. Qed.

Lemma iterencode_dict dct level :
  iterencode indent ensure_ascii (PDict dct) level =
  match dct with
  | [] => [lit "{}"]
  | _ => [lit "{"; newline_indent indent (S level)]
         ++ dict_items indent ensure_ascii level true dct
         ++ [newline_indent indent level; lit "}"]
  end.
Proof. by destruct dct. Qed.

Lemma list_items_cons level first v l :
  concat (list_items indent ensure_ascii level first (v :: l)) =
  (if first then lit "[" ++ newline_indent indent (S level)
   else item_separator ++ newline_indent indent (S level))
  ++ concat (iterencode indent ensure_ascii v (S level))
  ++ concat (list_items indent ensure_ascii level false l).
Proof.
  cbn [list_items]. rewrite concat_app.
  destruct v; cbn [concat iterencode]; by rewrite ?app_nil_r, <- ?app_assoc.
Qed.

Lemma list_items_rest level l :
  concat (list_items indent ensure_ascii level false l) =
  flat_map (fun v => item_separator ++ newline_indent indent (S level) ++ concat (iterencode indent ensure_ascii v (S level))) l.
Proof.
  induction l as [|v l IH]; [done|].
  rewrite list_items_cons, IH. cbn [flat_map]. by rewrite <- !app_assoc.
Qed.
End Layout.

Lemma join_cons sep x xs :
  join sep (x :: xs) = x ++ flat_map (fun y => sep ++ y) xs.
Proof.
  revert x. induction xs as [|y xs IH]; intros x.
  - cbn. by rewrite app_nil_r.
  - change (join sep (x :: y :: xs)) with (x ++ sep ++ join sep (y :: xs)).
    rewrite IH. cbn [flat_map]. by rewrite <- app_assoc.
Qed.

Lemma newline_indent_line level : newline_indent 2 level = line (2 * level).
Proof.
  unfold newline_indent, line. f_equal.
  induction level as [|k IH]; [done|].
  replace (2 * S k)%nat with (S (S (2 * k))) by lia.
  change (concat (repeat (repeat 0x20 2) (S k)))
    with (0x20 :: 0x20 :: concat (repeat (repeat 0x20 2) k)).
  by rewrite IH.
Qed.

Lemma spec_array_cons pad x xs :
  spec_array pad (x :: xs) =
  lit "[" ++ line (pad + 2) ++ x
  ++ flat_map (fun y => lit "," ++ line (pad + 2) ++ y) xs ++ line pad ++ lit "]".
Proof.
  unfold spec_array. rewrite join_cons, <- !app_assoc. reflexivity.
Qed.

Lemma flat_map_over_map {A B C} (f : B -> list C) (g : A -> B) l :
  flat_map f (map g l) = flat_map (fun x => f (g x)) l.
Proof. induction l as [|x l IH]; [done|]. cbn. by rewrite IH. Qed.

Section TwoSpaces.
Variable ensure_ascii : bool.

Lemma dumps_list lst level :
  concat (iterencode 2 ensure_ascii (PList lst) level) =
  spec_array (2 * level)
    (map (fun v => concat (iterencode 2 ensure_ascii v (S level))) lst).
Proof.
  rewrite iterencode_list. destruct lst as [|v l]; [done|].
  rewrite concat_app, list_items_cons, list_items_rest.
  cbn [map]. rewrite spec_array_cons, flat_map_over_map.
  rewrite !newline_indent_line. replace (2 * S level)%nat with (2 * level + 2)%nat by lia.
  cbn [concat]. rewrite app_nil_r, <- !app_assoc. reflexivity.
Qed.

Lemma dumps_tuple lst level :
  concat (iterencode 2 ensure_ascii (PTuple lst) level) =
  spec_array (2 * level)
    (map (fun v => concat (iterencode 2 ensure_ascii v (S level))) lst).
Proof. rewrite iterencode_tuple. apply dumps_list. Qed.
End TwoSpaces.

Lemma escape_char_ascii_ok :
  forallb (fun c => bool_decide (escape_char false c = spec_char c))
          (map N.of_nat (seq 0 128)) = true.
Proof. vm_compute. reflexivity. Qed.

Lemma escape_char_spec c : escape_char false c = spec_char c.
Proof.
  destruct (N.ltb_spec c 0x80) as [Hlt|Hge].
  - pose proof escape_char_ascii_ok as H. rewrite forallb_forall in H.
    apply (bool_decide_eq_true_1 _). apply H. apply in_map_iff.
    exists (N.to_nat c). split; [lia|]. apply in_seq. lia.
  - unfold escape_char, spec_char.
    repeat match goal with
           | |- context [?a =? ?b] => destruct (N.eqb_spec a b); [lia|]
           end.
    destruct (N.ltb_spec c 0x20); [lia|].
    destruct (N.leb_spec 0x80 c); [done|lia].
Qed.

Lemma encode_basestring_spec s : encode_basestring false s = spec_string s.
Proof.
  unfold encode_basestring, spec_string. do 2 f_equal.
  apply flat_map_ext. intros c. apply escape_char_spec.
Qed.

(** Beyond ASCII every character stands for itself. *)
Lemma spec_string_literal s :
  Forall (fun c => 0x80 <= c) s -> spec_string s = [dq] ++ s ++ [dq].
Proof.
  intros H. unfold spec_string. do 2 f_equal.
  induction H as [|c s Hc _ IH]; [done|]. cbn [flat_map]. rewrite IH.
  unfold spec_char. by destruct (N.leb_spec 0x80 c); [|lia].
Qed.

Lemma dumps_record r :
  concat (iterencode 2 false (record_py r) 1) = spec_record r.
Proof.
  unfold record_py. rewrite iterencode_dict. cbn [dict_items app].
  repeat (rewrite ?concat_cons, ?concat_app).
  change (iterencode 2 false (PStr (input r)) 2) with [encode_basestring false (input r)].
  rewrite !dumps_list. rewrite !map_map.
  rewrite (newline_indent_line 1), (newline_indent_line 2).
  unfold spec_record, spec_key.
  rewrite <- !encode_basestring_spec.
  cbn [concat]. rewrite ?app_nil_r.
  replace (map (fun x => concat (iterencode 2 false (PInt x) 3)) (token_ids r))
    with (map intstr (token_ids r)).
  2:{ apply map_ext. intros n. cbn. by rewrite app_nil_r. }
  replace (map (fun x => concat (iterencode 2 false (PStr x) 3)) (tokens r))
    with (map spec_string (tokens r)).
  2:{ apply map_ext. intros s. cbn [iterencode concat].
      by rewrite app_nil_r, encode_basestring_spec. }
  replace (map (fun x => concat (iterencode 2 false (PTuple [PInt (fst x); PInt (snd x)]) 3))
               (offsets r))
    with (map (fun p => spec_array 6 [intstr (fst p); intstr (snd p)]) (offsets r)).
  2:{ apply map_ext. intros p. rewrite dumps_tuple. cbn [map iterencode concat].
      by rewrite !app_nil_r. }
  unfold key_separator, item_separator.
  rewrite <- !app_assoc. reflexivity.
Qed.

Lemma dumps_document results :
  dumps 2 false (results_py results) = spec_document results.
Proof.
  unfold dumps, results_py, spec_document. rewrite dumps_list, map_map.
  f_equal. apply map_ext. intros r. apply dumps_record.
Qed.

(** ** Runs that succeed *)

Lemma main_loop_run tok cases : forall acc w recs,
  Forall2 (produced tok) cases recs ->
  main_loop tok cases acc w = (Ok (acc ++ recs), add_events (flat_map record_calls recs) w).
Proof.
  induction cases as [|text rest IH]; intros acc w recs Hrecs.
  - apply Forall2_nil_inv_l in Hrecs as ->. by rewrite app_nil_r, add_events_nil.
  - apply Forall2_cons_inv_l in Hrecs as (r & recs' & (enc & Henc & Hconv & Hin & Hids & Hoffs) & Hrest & ->).
    cbn [main_loop]. unfold bind, tok_encode, tok_convert_ids_to_tokens, bind, log, call.
    cbn. rewrite Henc, Hconv.
    replace {| input := text; token_ids := input_ids enc;
               offsets := offset_mapping enc; tokens := tokens r |} with r
      by (destruct r; cbn in *; by subst).
    rewrite (IH _ _ recs' Hrest). f_equal.
    + by rewrite <- app_assoc.
    + unfold add_events. cbn. rewrite <- !app_assoc, Hin, Hids. reflexivity.
Qed.

Lemma produced_functional tok text r1 r2 :
  produced tok text r1 -> produced tok text r2 -> r1 = r2.
Proof.
  intros (e1 & He1 & Hc1 & Hi1 & Ht1 & Ho1) (e2 & He2 & Hc2 & Hi2 & Ht2 & Ho2).
  rewrite He1 in He2. injection He2 as <-.
  rewrite Hc1 in Hc2. injection Hc2 as Hc.
  destruct r1, r2; cbn in *; by subst.
Qed.

Lemma produced_all_functional tok cases rs1 : forall rs2,
  Forall2 (produced tok) cases rs1 -> Forall2 (produced tok) cases rs2 -> rs1 = rs2.
Proof.
  intros rs2 H1. revert rs2. induction H1 as [|text r1 cases rs1 Hr _ IH]; intros rs2 H2.
  - by apply Forall2_nil_inv_l in H2.
  - apply Forall2_cons_inv_l in H2 as (r2 & rs2' & Hr2 & Hrest & ->).
    f_equal; [by eapply produced_functional | by apply IH].
Qed.

Lemma produced_inputs tok cases results :
  Forall2 (produced tok) cases results -> map input results = cases.
Proof.
  induction 1 as [|text r cases results (enc & _ & _ & Hin & _) _ IH]; [done|].
  cbn. by rewrite Hin, IH.
Qed.

Lemma main_ok_run env w tok results bs :
  from_pretrained env model_name = Ok tok ->
  Forall2 (produced tok) test_cases results ->
  dirname golden_path ∈ dirs w -> golden_path ∉ dirs w ->
  encode_text (preferred_encoding env)
    (translate_newlines (linesep env) (dumps 2 false (results_py results))) = Some bs ->
  exists w', main env w = (Ok tt, w').
Proof.
  intros Hload Hrecs Hdir Hnd Henc. rewrite main_unfold, Hload.
  rewrite (main_loop_run _ _ _ _ _ Hrecs). cbn [app].
  unfold write_stage, bind at 1, with_open_w, bind at 1. rewrite open_w_golden.
  rewrite (bool_decide_eq_true_2 _ Hdir), (bool_decide_eq_false_2 _ Hnd).
  unfold json_dump.
  edestruct (write_chunks_run
    {| f_name := golden_path; f_encoding := preferred_encoding env; f_newline := linesep env |}
    (iterencode 2 false (results_py results) 0)) as [w1 Hw1]; [|exact Henc|].
  2:{ rewrite Hw1. unfold file_close, log, print, bind, log. cbn. by eexists. }
  cbn. apply lookup_insert_eq.
Qed.


(** ** The span tokenizer keeps the library's contracts *)

Lemma span_tokenizer_lengths text enc :
  tok_call span_tokenizer text true false = Ok enc ->
  length (input_ids enc) = length (offset_mapping enc).
Proof. intros [= <-]. by destruct text. Qed.

Lemma span_tokenizer_one_per_id ids toks :
  convert_ids_to_tokens span_tokenizer ids = Ok toks -> length toks = length ids.
Proof. intros [= <-]. by rewrite length_map. Qed.

Lemma span_tokenizer_offsets text enc :
  tok_call span_tokenizer text true false = Ok enc ->
  offsets_ok text (offset_mapping enc) = true.
Proof.
  intros [= <-]. destruct text as [|c text]; [done|].
  unfold offsets_ok, within. cbn [offset_mapping nondecreasing forallb fst snd andb].
  rewrite andb_true_r. apply andb_true_intro. split; apply Z.leb_le; unfold len; lia.
Qed.

Lemma span_loop_run : main_loop span_tokenizer test_cases [] w_ready = (Ok span_results, w_looped).
Proof. vm_compute. reflexivity. Qed.

(** ** The records of the loop *)

Section Records.
Variable tok : Tokenizer.

Lemma main_loop_records cases w results w' :
  main_loop tok cases [] w = (Ok results, w') ->
  Forall2 (produced tok) cases results.
Proof.
  intros (recs & evs & _ & Hrecs & -> & Hlen & _)%main_loop_inv.
  by rewrite Hlen, firstn_all in Hrecs.
Qed.

(** What holds of the answers of the two calls holds of every record,
    since a record keeps them as they are. *)
Lemma main_loop_verbatim (P : str -> list Z -> list (Z * Z) -> list str -> Prop)
    cases w results w' :
  (forall text enc toks,
     tok_call tok text true false = Ok enc ->
     convert_ids_to_tokens tok (input_ids enc) = Ok toks ->
     P text (input_ids enc) (offset_mapping enc) toks) ->
  main_loop tok cases [] w = (Ok results, w') ->
  Forall (fun r => P (input r) (token_ids r) (offsets r) (tokens r)) results.
Proof.
  intros HP Hrecs%main_loop_records.
  induction Hrecs as [|text r cases results (enc & Henc & Hconv & Hin & Hids & Hoffs) _ IH];
    constructor; [|done].
  rewrite Hin, Hids, Hoffs. by apply HP.
Qed.
End Records.

(** ** The offset contract, spelled out *)

Lemma offsets_ok_spec text offs :
  offsets_ok text offs = true <->
  (forall i p q, offs !! i = Some p -> offs !! S i = Some q ->
                 (fst p <= fst q)%Z /\ (snd p <= snd q)%Z) /\
  Forall (fun p => (fst p <= snd p <= len text)%Z) offs.
Proof.
  unfold offsets_ok. rewrite andb_true_iff.
  cut ((nondecreasing offs = true <->
        forall i p q, offs !! i = Some p -> offs !! S i = Some q ->
                      (fst p <= fst q)%Z /\ (snd p <= snd q)%Z) /\
       (forallb (within (len text)) offs = true <->
        Forall (fun p => (fst p <= snd p <= len text)%Z) offs)); [tauto|].
  split.
  - induction offs as [|p offs IH]; [done|].
    destruct offs as [|q offs].
    + split; [|done]. intros _ [|i] ? ? ? Hq; discriminate Hq.
    + change (nondecreasing (p :: q :: offs))
        with ((fst p <=? fst q)%Z && (snd p <=? snd q)%Z && nondecreasing (q :: offs)).
      rewrite !andb_true_iff, !Z.leb_le, IH. split.
      * intros [[H1 H2] Hrest] [|i] p' q' Hp Hq.
        -- injection Hp as <-. injection Hq as <-. done.
        -- by apply (Hrest i).
      * intros H. split; [apply (H 0%nat); done|].
        intros i p' q' Hp Hq. by apply (H (S i)).
  - rewrite forallb_forall, Forall_forall. unfold within.
    split; intros H p Hp; specialize (H p).
    + rewrite <- list_elem_of_In in H. specialize (H Hp).
      apply andb_true_iff in H as [H1 H2]. apply Z.leb_le in H1, H2. done.
    + rewrite <- list_elem_of_In in Hp. specialize (H Hp).
      apply andb_true_iff. split; apply Z.leb_le; lia.
Qed.

(** ** Reading the log *)

Lemma text_written_app path evs1 evs2 :
  text_written path (evs1 ++ evs2) = text_written path evs1 ++ text_written path evs2.
Proof. unfold text_written. by rewrite omap_app, concat_app. Qed.

Lemma text_written_calls path results :
  text_written path (flat_map record_calls results) = [].
Proof. induction results as [|r results IH]; [done|]. apply IH. Qed.

Lemma text_written_writes path chunks :
  text_written path (map (EvWrite path) chunks) = concat chunks.
Proof.
  unfold text_written. induction chunks as [|c chunks IH]; [done|].
  cbn. rewrite bool_decide_eq_true_2 by done. cbn. by rewrite IH.
Qed.

Lemma tokenizer_events_calls results :
  List.filter is_tokenizer_event (flat_map record_calls results) =
  flat_map record_calls results.
Proof. induction results as [|r results IH]; [done|]. cbn. by rewrite IH. Qed.

Lemma tokenizer_events_writes path chunks :
  List.filter is_tokenizer_event (map (EvWrite path) chunks) = [].
Proof. induction chunks as [|c chunks IH]; [done|]. apply IH. Qed.

Lemma file_events_calls results :
  Forall (fun ev => is_file_event ev = false) (flat_map record_calls results).
Proof. induction results as [|r results IH]; [done|]. cbn. by repeat constructor. Qed.

Lemma writes_not_tokenizer path chunks :
  Forall (fun ev => is_tokenizer_event ev = false) (map (EvWrite path) chunks).
Proof. induction chunks as [|c chunks IH]; by constructor. Qed.

Lemma encode_calls_app text evs1 evs2 :
  encode_calls text (evs1 ++ evs2) = encode_calls text evs1 ++ encode_calls text evs2.
Proof. apply omap_app. Qed.

Lemma encode_calls_writes text path chunks :
  encode_calls text (map (EvWrite path) chunks) = [].
Proof. induction chunks as [|c chunks IH]; [done|]. apply IH. Qed.

Lemma encode_calls_records text results :
  encode_calls text (flat_map record_calls results) =
  flat_map (fun t => if bool_decide (t = text) then [(true, false)] else [])
           (map input results).
Proof.
  induction results as [|r results IH]; [done|].
  cbn [flat_map map]. rewrite encode_calls_app, IH. cbn.
  by case_bool_decide.
Qed.

Lemma test_cases_encoded_once text :
  text ∈ test_cases ->
  flat_map (fun t => if bool_decide (t = text) then [(true, false)] else []) test_cases
  = [(true, false)].
Proof.
  intros H. unfold test_cases in H.
  repeat (apply elem_of_cons in H as [->|H]; [vm_compute; reflexivity|]).
  by apply elem_of_nil in H.
Qed.

(** ** Failing tokenizer stages leave no records *)

Lemma round_fails_not_produced tok text e fevs r :
  round_fails tok text e fevs -> produced tok text r -> False.
Proof.
  intros [[Hf _]|(enc & He & Hc & _)] (enc' & He' & Hc' & _); [congruence|].
  rewrite He in He'. injection He' as <-. congruence.
Qed.

Lemma tokenizer_stage_fails_no_records env tok results :
  tokenizer_stage_fails env ->
  from_pretrained env model_name = Ok tok ->
  Forall2 (produced tok) test_cases results -> False.
Proof.
  intros [[e He]|(tok' & text & e & fevs & Hl & Hin & Hfail)] Hload Hrecs; [congruence|].
  rewrite Hload in Hl. injection Hl as <-.
  apply list_elem_of_lookup in Hin as [i Hi].
  destruct (Forall2_lookup_l _ _ _ _ _ Hrecs Hi) as (r & _ & Hr).
  by eapply round_fails_not_produced.
Qed.

Lemma round_fails_events tok text e fevs :
  round_fails tok text e fevs -> Forall (fun ev => is_file_event ev = false) fevs.
Proof. intros [[_ ->]|(enc & _ & _ & ->)]; by repeat constructor. Qed.

Lemma script_raise env w e w' : main env w = (Raise e, w') -> script env w = (1%Z, w').
Proof. unfold script. by intros ->. Qed.

(** ** The runs on the sample worlds *)

Lemma posix_run : main posix_utf8 w_ready = (Ok tt, w_done).
Proof. vm_compute. reflexivity. Qed.

Lemma windows_run : main windows_cp1252 w_ready = (Ok tt, w_win).
Proof. vm_compute. reflexivity. Qed.

Lemma stale_run : main posix_utf8 w_stale = (Ok tt, w_redone).
Proof. vm_compute. reflexivity. Qed.

Lemma offline_run : main offline w_ready = (Raise (LibraryError model_name), w_offline).
Proof. vm_compute. reflexivity. Qed.

Lemma span_results_produced : Forall2 (produced span_tokenizer) test_cases span_results.
Proof. exact (main_loop_records _ _ _ _ _ span_loop_run). Qed.

(** ** The loop inside a completed run *)

Lemma main_ok_loop env w w' :
  main env w = (Ok tt, w') ->
  exists tok results w1,
    from_pretrained env model_name = Ok tok /\
    main_loop tok test_cases [] (add_events [EvFromPretrained model_name] w)
      = (Ok results, w1) /\
    write_stage env results w1 = (Ok tt, w').
Proof.
  rewrite main_unfold. destruct (from_pretrained env model_name) as [tok|e]; [|done].
  destruct (main_loop _ _ _ _) as [[results|e] w1] eqn:Hloop; [|done].
  intros Hw. by exists tok, results, w1.
Qed.

(** * The generator's properties *)

(** C1.  Every record the per-input loop produces has as many token ids as
    offsets and as tokens, provided the tokenizer's encode call returns as
    many ids as offsets and its id resolution returns one string per id. *)
Theorem C1_record_lengths_agree (tok : Tokenizer) (cases : list str)
    (w w' : World) (results : list GoldenRecord) :
  (forall text enc,
     tok_call tok text true false = Ok enc ->
     length (input_ids enc) = length (offset_mapping enc)) ->
  (forall ids toks,
     convert_ids_to_tokens tok ids = Ok toks -> length toks = length ids) ->
  main_loop tok cases [] w = (Ok results, w') ->
  Forall (fun r => len (token_ids r) = len (offsets r) /\
                   len (offsets r) = len (tokens r)) results.
Proof.
  intros Henc Hconv Hrun.
  apply (main_loop_verbatim tok
           (fun _ ids offs toks => len ids = len offs /\ len offs = len toks)
           cases w results w'); [|done].
  intros text enc toks He Hc. unfold len.
  rewrite <- (Henc _ _ He), (Hconv _ _ Hc). done.
Qed.

Lemma C1_record_lengths_agree_witness :
  Forall (fun r => len (token_ids r) = len (offsets r) /\
                   len (offsets r) = len (tokens r)) span_results.
Proof.
  apply (C1_record_lengths_agree span_tokenizer test_cases w_ready w_looped span_results).
  - apply span_tokenizer_lengths.
  - apply span_tokenizer_one_per_id.
  - vm_compute. reflexivity.
Defined.

(** C2.  A run that completes has written one JSON array of exactly
    eleven records, one per test case and in the order of the test cases,
    the i-th record carrying the i-th input string. *)
Theorem C2_eleven_records_in_order (env : Env) (w w' : World) :
  main env w = (Ok tt, w') ->
  exists tok results bs evs,
    from_pretrained env model_name = Ok tok /\
    Forall2 (produced tok) test_cases results /\
    length results = 11%nat /\
    map input results = test_cases /\
    (forall i text, test_cases !! i = Some text ->
                    exists r, results !! i = Some r /\ input r = text) /\
    trace w' = trace w ++ evs /\
    text_written golden_path evs = dumps 2 false (PList (map record_py results)) /\
    dumps 2 false (PList (map record_py results)) = spec_array 0 (map spec_record results) /\
    files w' !! golden_path = Some bs /\
    encode_text (preferred_encoding env)
      (translate_newlines (linesep env) (dumps 2 false (PList (map record_py results))))
    = Some bs.
Proof.
  intros (tok & results & bs & Hload & Hrecs & _ & _ & Henc & _ & Hfiles & _ & Ht)%main_ok_inv.
  exists tok, results, bs. eexists. split_and!; try done.
  - apply Forall2_length in Hrecs. by rewrite <- Hrecs.
  - by eapply produced_inputs.
  - intros i text Hi. apply produced_inputs in Hrecs. rewrite <- Hrecs in Hi.
    change (map input results) with (input <$> results) in Hi.
    rewrite list_lookup_fmap in Hi. destruct (results !! i) as [r|]; [|done].
    injection Hi as Hi. by exists r.
  - rewrite !text_written_app, text_written_calls, text_written_writes. cbn.
    by rewrite app_nil_r.
  - apply dumps_document.
  - rewrite Hfiles. apply lookup_insert_eq.
Qed.

Lemma C2_eleven_records_in_order_witness :
  main posix_utf8 w_ready = (Ok tt, w_done) /\
  exists results,
    length results = 11%nat /\ map input results = test_cases /\
    text_written golden_path (trace w_done) = spec_array 0 (map spec_record results).
Proof.
  split; [exact posix_run|].
  destruct (C2_eleven_records_in_order posix_utf8 w_ready w_done posix_run)
    as (tok & results & bs & evs & _ & _ & Hlen & Hin & _ & Ht & Htext & Hlayout & _).
  exists results. split; [exact Hlen|]. split; [exact Hin|].
  rewrite Ht, text_written_app, Htext. exact Hlayout.
Defined.

(** C3.  For the empty input the record holds three empty sequences,
    provided the tokenizer, called without special tokens, returns no ids
    and no offsets for the empty text and resolves no ids to no tokens.
    The empty text is the eighth test case. *)
Theorem C3_empty_input_empty_record (tok : Tokenizer) (w w' : World)
    (results : list GoldenRecord) :
  (forall enc, tok_call tok [] true false = Ok enc ->
               input_ids enc = [] /\ offset_mapping enc = []) ->
  (forall toks, convert_ids_to_tokens tok [] = Ok toks -> toks = []) ->
  main_loop tok test_cases [] w = (Ok results, w') ->
  (exists r, results !! 7%nat = Some r /\ input r = []) /\
  Forall (fun r => input r = [] ->
                   token_ids r = [] /\ offsets r = [] /\ tokens r = []) results.
Proof.
  intros Henc Hconv Hrun. split.
  - pose proof (main_loop_records _ _ _ _ _ Hrun) as Hin%produced_inputs.
    assert (map input results !! 7%nat = Some []) as Hlook by by rewrite Hin.
    change (map input results) with (input <$> results) in Hlook.
    rewrite list_lookup_fmap in Hlook.
    destruct (results !! 7%nat) as [r|]; [|done]. injection Hlook as Hr. by exists r.
  - apply (main_loop_verbatim tok
             (fun text ids offs toks => text = [] -> ids = [] /\ offs = [] /\ toks = [])
             test_cases w results w'); [|done].
    intros text enc toks He Hc ->. destruct (Henc _ He) as [Hids Hoffs].
    rewrite Hids in Hc |- *. by rewrite (Hconv _ Hc).
Qed.

Lemma C3_empty_input_empty_record_witness :
  (exists r, span_results !! 7%nat = Some r /\ input r = []) /\
  Forall (fun r => input r = [] ->
                   token_ids r = [] /\ offsets r = [] /\ tokens r = []) span_results.
Proof.
  apply (C3_empty_input_empty_record span_tokenizer w_ready w_looped span_results).
  - intros enc [= <-]. done.
  - intros toks [= <-]. done.
  - vm_compute. reflexivity.
Defined.

(** C4.  In a run that completes, the calls made to the tokenizer library
    are the load followed, for each test case in turn, by one encode call
    on that text with offsets requested and special tokens disabled and
    one id resolution on the ids that call returned; each text is encoded
    exactly once.  The records are those the loop of the run built and
    those the run wrote to the file, and each holds what the two calls
    returned. *)
Theorem C4_one_encode_then_resolve (env : Env) (w w' : World) :
  main env w = (Ok tt, w') ->
  exists tok results w1 evs bs,
    from_pretrained env model_name = Ok tok /\
    main_loop tok test_cases [] (add_events [EvFromPretrained model_name] w)
      = (Ok results, w1) /\
    trace w' = trace w ++ evs /\
    List.filter is_tokenizer_event evs =
      EvFromPretrained model_name ::
      flat_map (fun r => [EvEncode (input r) true false; EvConvertIds (token_ids r)]) results /\
    map input results = test_cases /\
    (forall text, text ∈ test_cases -> encode_calls text evs = [(true, false)]) /\
    Forall (fun r => exists enc,
              tok_call tok (input r) true false = Ok enc /\
              token_ids r = input_ids enc /\
              offsets r = offset_mapping enc /\
              convert_ids_to_tokens tok (input_ids enc) = Ok (tokens r)) results /\
    text_written golden_path evs = dumps 2 false (results_py results) /\
    files w' !! golden_path = Some bs /\
    encode_text (preferred_encoding env)
      (translate_newlines (linesep env) (dumps 2 false (results_py results))) = Some bs.
Proof.
  intros Hrun.
  destruct (main_ok_loop _ _ _ Hrun) as (tok & results & w1 & Hload & Hloop & _).
  apply main_ok_inv in Hrun
    as (tok' & results' & bs & Hload' & Hrecs & _ & _ & Henc & _ & Hfiles & _ & Ht).
  rewrite Hload in Hload'. injection Hload' as <-.
  pose proof (main_loop_records _ _ _ _ _ Hloop) as Hrecs'.
  rewrite <- (produced_all_functional _ _ _ _ Hrecs' Hrecs) in *. clear Hrecs.
  exists tok, results, w1. eexists. exists bs. split_and!; try done.
  - rewrite !List.filter_app, tokenizer_events_calls, tokenizer_events_writes. cbn.
    by rewrite app_nil_r.
  - by eapply produced_inputs.
  - intros text Hin. rewrite !encode_calls_app, encode_calls_records, encode_calls_writes.
    rewrite (produced_inputs _ _ _ Hrecs'), (test_cases_encoded_once _ Hin). done.
  - clear Ht Hloop Henc.
    induction Hrecs' as [|text r cases results (enc & He & Hc & Hi & Hids & Ho) _ IH];
      constructor; [|done].
    exists enc. by rewrite Hi.
  - rewrite !text_written_app, text_written_calls, text_written_writes. cbn.
    by rewrite app_nil_r.
  - rewrite Hfiles. apply lookup_insert_eq.
Qed.

Lemma C4_one_encode_then_resolve_witness :
  main posix_utf8 w_ready = (Ok tt, w_done) /\
  exists results w1,
    main_loop span_tokenizer test_cases [] (add_events [EvFromPretrained model_name] w_ready)
      = (Ok results, w1) /\
    List.filter is_tokenizer_event (trace w_done) =
      EvFromPretrained model_name ::
      flat_map (fun r => [EvEncode (input r) true false; EvConvertIds (token_ids r)]) results /\
    map input results = test_cases /\
    encode_calls [] (trace w_done) = [(true, false)] /\
    text_written golden_path (trace w_done) = dumps 2 false (results_py results).
Proof.
  split; [exact posix_run|].
  destruct (C4_one_encode_then_resolve posix_utf8 w_ready w_done posix_run)
    as (tok & results & w1 & evs & bs & Hload & Hloop & Ht & Hcalls & Hin & Honce & _ & Htext & _).
  injection Hload as <-.
  exists results, w1. rewrite Ht. split; [exact Hloop|]. split; [exact Hcalls|].
  split; [exact Hin|]. split.
  - apply Honce. unfold test_cases. do 7 apply list_elem_of_further. apply list_elem_of_here.
  - rewrite text_written_app. exact Htext.
Defined.

(** C5 as stated fails.  Under code page 1252 with Windows line endings
    the run completes, and the bytes of the file are not the UTF-8 encoding
    of the text written, with or without the line endings translated. *)
Lemma C5_utf8_counterexample :
  main windows_cp1252 w_ready = (Ok tt, w_win) /\
  files w_win !! golden_path <>
    encode_text utf_8 (text_written golden_path (trace w_win)) /\
  files w_win !! golden_path <>
    encode_text utf_8
      (translate_newlines (linesep windows_cp1252) (text_written golden_path (trace w_win))).
Proof.
  split; [exact windows_run|].
  split; apply (bool_decide_eq_false_1 _); vm_compute; reflexivity.
Qed.

(** Under ISO 8859-1 the run stops at the first chunk with a character the
    encoding lacks, leaving the beginning of the document in the file. *)
Example latin1_run_raises :
  exists chunk w',
    main posix_latin1 w_ready = (Raise (UnicodeEncodeError chunk), w') /\
    utf_8 0x2013 <> None /\ latin_1 0x2013 = None /\ 0x2013 ∈ chunk /\
    is_Some (files w' !! golden_path).
Proof.
  eexists _, _. split; [vm_compute; reflexivity|].
  split_and!; [done|done| |].
  - apply (bool_decide_eq_true_1 _). vm_compute. reflexivity.
  - apply (bool_decide_eq_true_1 _). vm_compute. reflexivity.
Qed.

(** C5, as the script has it.  A run that completes leaves every other file alone and
    writes, at the fixed relative path, the document laid out with two
    spaces per level and with the characters beyond ASCII as they are; its
    bytes are that text with line breaks as the platform's line separator,
    in the platform's default text encoding, hence in UTF-8 where that
    default is UTF-8. *)
Theorem C5_file_in_platform_encoding (env : Env) (w w' : World) :
  main env w = (Ok tt, w') ->
  exists tok results bs evs,
    from_pretrained env model_name = Ok tok /\
    Forall2 (produced tok) test_cases results /\
    (forall p, p <> golden_path -> files w' !! p = files w !! p) /\
    files w' !! golden_path = Some bs /\
    trace w' = trace w ++ evs /\
    text_written golden_path evs = spec_document results /\
    encode_text (preferred_encoding env)
      (translate_newlines (linesep env) (spec_document results)) = Some bs /\
    (preferred_encoding env = utf_8 ->
     encode_text utf_8 (translate_newlines (linesep env) (spec_document results)) = Some bs) /\
    (forall s, Forall (fun c => 0x80 <= c) s -> spec_string s = [dq] ++ s ++ [dq]).
Proof.
  intros (tok & results & bs & Hload & Hrecs & _ & _ & Henc & _ & Hfiles & _ & Ht)%main_ok_inv.
  rewrite dumps_document in Henc.
  exists tok, results, bs. eexists. split_and!; try done.
  - intros p Hp. rewrite Hfiles. by apply lookup_insert_ne.
  - rewrite Hfiles. apply lookup_insert_eq.
  - rewrite !text_written_app, text_written_calls, text_written_writes. cbn.
    rewrite app_nil_r. apply dumps_document.
  - by intros <-.
  - apply spec_string_literal.
Qed.

Lemma C5_file_in_platform_encoding_witness :
  main posix_utf8 w_ready = (Ok tt, w_done) /\
  exists results bs,
    files w_done !! golden_path = Some bs /\
    text_written golden_path (trace w_done) = spec_document results /\
    encode_text utf_8 (spec_document results) = Some bs.
Proof.
  split; [exact posix_run|].
  destruct (C5_file_in_platform_encoding posix_utf8 w_ready w_done posix_run)
    as (tok & results & bs & evs & _ & _ & _ & Hfile & Ht & Htext & _ & Hutf & _).
  exists results, bs. split; [exact Hfile|]. split.
  - rewrite Ht, text_written_app. exact Htext.
  - rewrite <- (translate_newlines_lf (spec_document results)). exact (Hutf eq_refl).
Defined.

(** C6 as stated fails.  With the same tokenizer, a platform that differs
    from another in its default encoding only, or in its line separator
    only, completes the run with other bytes in the output file. *)
Lemma C6_same_tokenizer_counterexample :
  from_pretrained posix_utf8 = from_pretrained posix_cp1252 /\
  from_pretrained posix_utf8 = from_pretrained windows_utf8 /\
  (exists w1' w2',
     main posix_utf8 w_ready = (Ok tt, w1') /\ main posix_cp1252 w_ready = (Ok tt, w2') /\
     files w1' !! golden_path <> files w2' !! golden_path) /\
  (exists w1' w2',
     main posix_utf8 w_ready = (Ok tt, w1') /\ main windows_utf8 w_ready = (Ok tt, w2') /\
     files w1' !! golden_path <> files w2' !! golden_path).
Proof.
  split; [reflexivity|]. split; [reflexivity|]. split.
  - eexists _, _. split; [vm_compute; reflexivity|]. split; [vm_compute; reflexivity|].
    apply (bool_decide_eq_false_1 _). vm_compute. reflexivity.
  - eexists _, _. split; [vm_compute; reflexivity|]. split; [vm_compute; reflexivity|].
    apply (bool_decide_eq_false_1 _). vm_compute. reflexivity.
Qed.

(** C6, as the script has it.  Two runs with the same tokenizer, on
    platforms with the same default encoding and the same line separator,
    that both complete, from whatever file systems, leave the same bytes
    in the output file; and a run started where a completed run ended
    completes too and leaves the files as they are. *)
Theorem C6_runs_agree (env1 env2 : Env) (w1 w2 w1' w2' : World) :
  from_pretrained env1 model_name = from_pretrained env2 model_name ->
  preferred_encoding env1 = preferred_encoding env2 ->
  linesep env1 = linesep env2 ->
  main env1 w1 = (Ok tt, w1') ->
  main env2 w2 = (Ok tt, w2') ->
  files w1' !! golden_path = files w2' !! golden_path /\
  exists w'', main env1 w1' = (Ok tt, w'') /\ files w'' = files w1'.
Proof.
  intros Hsame Hcodec Hnl
    (tok & rs1 & bs1 & Hload & Hrecs1 & Hdir & Hnd & Henc1 & Hd1 & Hf1 & _)%main_ok_inv
    (tok2 & rs2 & bs2 & Hload2 & Hrecs2 & _ & _ & Henc2 & _ & Hf2 & _)%main_ok_inv.
  rewrite <- Hsame, Hload in Hload2. injection Hload2 as <-.
  rewrite <- (produced_all_functional _ _ _ _ Hrecs1 Hrecs2), <- Hcodec, <- Hnl in Henc2.
  rewrite Henc1 in Henc2. injection Henc2 as <-. split.
  - by rewrite Hf1, Hf2, !lookup_insert_eq.
  - destruct (main_ok_run env1 w1' tok rs1 bs1) as [w'' Hrun]; try done;
      [by rewrite Hd1..|].
    exists w''. split; [done|].
    apply main_ok_inv in Hrun
      as (tok3 & rs3 & bs3 & Hload3 & Hrecs3 & _ & _ & Henc3 & _ & Hf3 & _).
    rewrite Hload in Hload3. injection Hload3 as <-.
    rewrite <- (produced_all_functional _ _ _ _ Hrecs1 Hrecs3) in Henc3.
    rewrite Henc1 in Henc3. injection Henc3 as <-.
    by rewrite Hf3, Hf1, insert_insert_eq.
Qed.

Lemma C6_runs_agree_witness :
  main posix_utf8 w_ready = (Ok tt, w_done) /\
  main posix_utf8 w_stale = (Ok tt, w_redone) /\
  files w_done !! golden_path = files w_redone !! golden_path /\
  exists w'', main posix_utf8 w_done = (Ok tt, w'') /\ files w'' = files w_done.
Proof.
  split; [exact posix_run|]. split; [exact stale_run|].
  exact (C6_runs_agree posix_utf8 posix_utf8 w_ready w_stale w_done w_redone
           eq_refl eq_refl eq_refl posix_run stale_run).
Defined.

(** C7.  When the tokenizer cannot be loaded the run ends in that
    exception right after the one load attempt; when the destination
    directory is missing the run ends in the error of the one attempt to
    open the file, which is [FileNotFoundError] unless a regular file
    stands in the directory's place; and whenever a run ends in an
    exception, the exit status is 1, nothing has been printed, and the run
    stopped at the failing step. *)
Theorem C7_failures_propagate (env : Env) (w : World) :
  (forall e, from_pretrained env model_name = Raise e ->
             main env w = (Raise e, add_events [EvFromPretrained model_name] w) /\
             script env w = (1%Z, add_events [EvFromPretrained model_name] w)) /\
  (forall tok results,
     from_pretrained env model_name = Ok tok ->
     Forall2 (produced tok) test_cases results ->
     dirname golden_path ∉ dirs w ->
     let w' := add_events ([EvFromPretrained model_name] ++ flat_map record_calls results
                           ++ [EvOpen golden_path]) w in
     main env w = (Raise (missing_parent_error (files w) golden_path), w') /\
     script env w = (1%Z, w') /\
     (files w !! dirname golden_path = None ->
      missing_parent_error (files w) golden_path = FileNotFoundError golden_path)) /\
  (forall e w', main env w = (Raise e, w') ->
                script env w = (1%Z, w') /\ stdout w' = stdout w /\
                failed_run env w e w').
Proof.
  split_and!.
  - intros e Hload.
    assert (main env w = (Raise e, add_events [EvFromPretrained model_name] w)) as Hrun
      by by rewrite main_unfold, Hload.
    split; [done | by eapply script_raise].
  - intros tok results Hload Hrecs Hdir w'.
    assert (main env w = (Raise (missing_parent_error (files w) golden_path), w')) as Hrun.
    { rewrite main_unfold, Hload, (main_loop_run _ _ _ _ _ Hrecs). cbn [app].
      unfold write_stage, bind at 1, with_open_w, bind at 1. rewrite open_w_golden.
      rewrite (bool_decide_eq_false_2 _ Hdir). unfold w'.
      by rewrite !add_events_app. }
    split_and!; [done | by eapply script_raise |].
    intros Hnone. unfold missing_parent_error. rewrite Hnone.
    by rewrite bool_decide_eq_false_2 by by intros [??].
  - intros e w' Hrun. split; [by eapply script_raise|].
    apply main_raise_inv in Hrun. split; [|done].
    by apply failed_run_frame in Hrun as (_ & Hs & _).
Qed.

Lemma C7_failures_propagate_witness :
  (from_pretrained offline model_name = Raise (LibraryError model_name) /\
   main offline w_ready = (Raise (LibraryError model_name), w_offline) /\
   script offline w_ready = (1%Z, w_offline)) /\
  ((dirname golden_path ∉ dirs w_bare) /\
   main posix_utf8 w_bare = (Raise (FileNotFoundError golden_path), w_no_dir) /\
   script posix_utf8 w_bare = (1%Z, w_no_dir)).
Proof.
  split.
  - split; [reflexivity|].
    exact (proj1 (C7_failures_propagate offline w_ready) (LibraryError model_name) eq_refl).
  - assert (dirname golden_path ∉ dirs w_bare) as Hdir by apply not_elem_of_empty.
    split; [exact Hdir|].
    destruct (proj1 (proj2 (C7_failures_propagate posix_utf8 w_bare))
                span_tokenizer span_results eq_refl span_results_produced Hdir)
      as (Hmain & Hscript & Herr).
    rewrite (Herr eq_refl) in Hmain. split; [exact Hmain | exact Hscript].
Defined.

(** C8.  In every record the offsets are those the encode call returned
    for the record's input, so they never decrease and each pair satisfies
    [start <= end <= len(input)] whenever the tokenizer keeps that
    contract. *)
Theorem C8_offsets_keep_contract (tok : Tokenizer) (cases : list str)
    (w w' : World) (results : list GoldenRecord) :
  (forall text enc, tok_call tok text true false = Ok enc ->
                    offsets_ok text (offset_mapping enc) = true) ->
  main_loop tok cases [] w = (Ok results, w') ->
  Forall (fun r =>
            (exists enc, tok_call tok (input r) true false = Ok enc /\
                         offsets r = offset_mapping enc) /\
            offsets_ok (input r) (offsets r) = true) results.
Proof.
  intros Hcontract Hrun.
  apply (main_loop_verbatim tok
           (fun text _ offs _ =>
              (exists enc, tok_call tok text true false = Ok enc /\ offs = offset_mapping enc) /\
              offsets_ok text offs = true)
           cases w results w'); [|done].
  intros text enc toks He _. split; [by exists enc | by apply Hcontract].
Qed.

Lemma C8_offsets_keep_contract_witness :
  Forall (fun r =>
            (exists enc, tok_call span_tokenizer (input r) true false = Ok enc /\
                         offsets r = offset_mapping enc) /\
            offsets_ok (input r) (offsets r) = true) span_results.
Proof.
  apply (C8_offsets_keep_contract span_tokenizer test_cases w_ready w_looped span_results).
  - apply span_tokenizer_offsets.
  - vm_compute. reflexivity.
Defined.

(** C9.  In every record the tokens are the resolution of the very ids
    stored in that record, which are the ids the encode call returned for
    the record's input. *)
Theorem C9_tokens_resolve_stored_ids (tok : Tokenizer) (cases : list str)
    (w w' : World) (results : list GoldenRecord) :
  main_loop tok cases [] w = (Ok results, w') ->
  Forall (fun r =>
            convert_ids_to_tokens tok (token_ids r) = Ok (tokens r) /\
            exists enc, tok_call tok (input r) true false = Ok enc /\
                        token_ids r = input_ids enc) results.
Proof.
  intros Hrun.
  apply (main_loop_verbatim tok
           (fun text ids _ toks =>
              convert_ids_to_tokens tok ids = Ok toks /\
              exists enc, tok_call tok text true false = Ok enc /\ ids = input_ids enc)
           cases w results w'); [|done].
  intros text enc toks He Hc. split; [done | by exists enc].
Qed.

Lemma C9_tokens_resolve_stored_ids_witness :
  Forall (fun r =>
            convert_ids_to_tokens span_tokenizer (token_ids r) = Ok (tokens r) /\
            exists enc, tok_call span_tokenizer (input r) true false = Ok enc /\
                        token_ids r = input_ids enc) span_results.
Proof.
  apply (C9_tokens_resolve_stored_ids span_tokenizer test_cases w_ready w_looped span_results).
  vm_compute. reflexivity.
Defined.

(** C10.  The file is opened only once the load and the calls for all
    eleven inputs have returned; and when the load or a call for some input
    raises, the run raises, no file operation takes place, and the files
    and directories are as they were. *)
Theorem C10_file_untouched_on_tokenizer_error (env : Env) (w w' : World) (r : result unit) :
  main env w = (r, w') ->
  exists evs,
    trace w' = trace w ++ evs /\
    (EvOpen golden_path ∈ evs ->
     exists tok results rest,
       from_pretrained env model_name = Ok tok /\
       Forall2 (produced tok) test_cases results /\
       length results = 11%nat /\
       evs = load_events ++ flat_map record_calls results ++ EvOpen golden_path :: rest /\
       Forall (fun ev => is_tokenizer_event ev = false) rest) /\
    (tokenizer_stage_fails env ->
     (exists e, r = Raise e) /\
     files w' = files w /\ dirs w' = dirs w /\
     Forall (fun ev => is_file_event ev = false) evs).
Proof.
  intros Hrun. destruct r as [[]|e].
  - apply main_ok_inv in Hrun
      as (tok & results & bs & Hload & Hrecs & _ & _ & _ & _ & _ & _ & Ht).
    eexists. split; [exact Ht|]. split.
    + intros _. exists tok, results. eexists. split_and!; try done.
      * apply Forall2_length in Hrecs. by rewrite <- Hrecs.
      * apply Forall_app. split; [apply writes_not_tokenizer|by repeat constructor].
    + intros Hfail. by destruct (tokenizer_stage_fails_no_records _ _ _ Hfail Hload Hrecs).
  - apply main_raise_inv in Hrun
      as [Hload ->|tok recs text fevs Hload Hrecs Hlook Hfail ->
          |tok results Hload Hrecs He ->
          |tok results written chunk rest Hload Hrecs _ _ _ _ _ _ Hd Hs Hf Ht].
    + exists load_events. split; [done|]. split.
      * intros Hin. apply list_elem_of_singleton in Hin. discriminate Hin.
      * intros _. split_and!; try done; [by exists e | by repeat constructor].
    + eexists. split; [done|].
      assert (Forall (fun ev => is_file_event ev = false)
                (load_events ++ flat_map record_calls recs ++ fevs)) as Hnofile.
      { repeat apply Forall_app_2; [by repeat constructor|apply file_events_calls|].
        by eapply round_fails_events. }
      split.
      * intros Hin. rewrite Forall_forall in Hnofile.
        specialize (Hnofile _ Hin). discriminate Hnofile.
      * intros _. split_and!; try done. by exists e.
    + eexists. split; [done|]. split.
      * intros _. exists tok, results, []. split_and!; try done.
        apply Forall2_length in Hrecs. by rewrite <- Hrecs.
      * intros Hfail. by destruct (tokenizer_stage_fails_no_records _ _ _ Hfail Hload Hrecs).
    + eexists. split; [exact Ht|]. split.
      * intros _. exists tok, results. eexists. split_and!; try done.
        -- apply Forall2_length in Hrecs. by rewrite <- Hrecs.
        -- apply Forall_app. split; [apply writes_not_tokenizer|by repeat constructor].
      * intros Hfail. by destruct (tokenizer_stage_fails_no_records _ _ _ Hfail Hload Hrecs).
Qed.

Lemma C10_file_untouched_on_tokenizer_error_witness :
  main offline w_ready = (Raise (LibraryError model_name), w_offline) /\
  tokenizer_stage_fails offline /\
  files w_offline = files w_ready /\ dirs w_offline = dirs w_ready.
Proof.
  split; [exact offline_run|].
  assert (tokenizer_stage_fails offline) as Hfail
    by (left; exists (LibraryError model_name); reflexivity).
  split; [exact Hfail|].
  destruct (C10_file_untouched_on_tokenizer_error offline w_ready w_offline _ offline_run)
    as (evs & _ & _ & Hsame).
  destruct (Hsame Hfail) as (_ & Hf & Hd & _). split; [exact Hf | exact Hd].
Defined.

(** * Further properties of the generator *)

(** ** Runs that fail, forwards *)

Lemma main_loop_fail_run tok e text fevs cases : forall recs acc w,
  Forall2 (produced tok) (take (length recs) cases) recs ->
  cases !! length recs = Some text ->
  round_fails tok text e fevs ->
  main_loop tok cases acc w =
    (Raise e, add_events (flat_map record_calls recs ++ fevs) w).
Proof.
  induction cases as [|t rest IH]; intros recs acc w Hrecs Hlook Hfail; [done|].
  destruct recs as [|r recs].
  - injection Hlook as ->. cbn [main_loop].
    unfold bind, tok_encode, tok_convert_ids_to_tokens, bind, log, call. cbn.
    destruct Hfail as [[Hf ->]|(enc & He & Hc & ->)].
    + by rewrite Hf.
    + rewrite He, Hc. unfold add_events. cbn. by rewrite <- app_assoc.
  - cbn in Hrecs, Hlook.
    apply Forall2_cons in Hrecs as [(enc & He & Hc & Hin & Hids & Hoffs) Hrecs].
    cbn [main_loop]. unfold bind, tok_encode, tok_convert_ids_to_tokens, bind, log, call.
    cbn. rewrite He, Hc. rewrite (IH recs _ _ Hrecs Hlook Hfail).
    f_equal. unfold add_events. cbn. rewrite <- !app_assoc, Hin, Hids. reflexivity.
Qed.

Lemma write_chunks_fail f chunk rest before : forall w old bs,
  files w !! f_name f = Some old ->
  encode_text (f_encoding f) (translate_newlines (f_newline f) (concat before)) = Some bs ->
  encode_text (f_encoding f) (translate_newlines (f_newline f) chunk) = None ->
  exists w',
    write_chunks f (before ++ chunk :: rest) w = (Raise (UnicodeEncodeError chunk), w') /\
    dirs w' = dirs w /\ stdout w' = stdout w /\
    files w' = <[f_name f := old ++ bs]> (files w) /\
    trace w' = trace w ++ map (EvWrite (f_name f)) (before ++ [chunk]).
Proof.
  induction before as [|c before IH]; intros w old bs Hold Hbs Hnone.
  - injection Hbs as <-. cbn. unfold bind, file_write, bind, log. cbn. rewrite Hnone.
    eexists. split; [done|]. cbn. split_and!; try done.
    by rewrite app_nil_r, insert_id.
  - cbn [concat] in Hbs. rewrite translate_newlines_app, encode_text_app in Hbs.
    destruct (encode_text _ (translate_newlines _ c)) as [b1|] eqn:H1; [|done].
    destruct (encode_text _ (translate_newlines _ (concat before))) as [b2|] eqn:H2; [|done].
    injection Hbs as <-.
    cbn. unfold bind at 1, file_write, bind at 1, log. cbn. rewrite H1, Hold. cbn.
    edestruct (IH (set_files (<[f_name f:=old ++ b1]> (files w))
                     {| dirs := dirs w; files := files w; stdout := stdout w;
                        trace := trace w ++ [EvWrite (f_name f) c] |}) (old ++ b1) b2)
      as (w' & Hrun & Hd & Hs & Hf & Ht); [cbn; apply lookup_insert_eq|done|done|].
    exists w'. split; [exact Hrun|]. cbn in *. split_and!; try done.
    + by rewrite Hf, insert_insert_eq, app_assoc.
    + by rewrite Ht, <- app_assoc.
Qed.

(** ** The loop sees the tokenizer only through its calls *)

Lemma main_loop_ext tok1 tok2 cases : forall acc w,
  (forall text, text ∈ cases ->
     tok_call tok1 text true false = tok_call tok2 text true false /\
     forall enc, tok_call tok1 text true false = Ok enc ->
       convert_ids_to_tokens tok1 (input_ids enc) = convert_ids_to_tokens tok2 (input_ids enc)) ->
  main_loop tok1 cases acc w = main_loop tok2 cases acc w.
Proof.
  induction cases as [|text rest IH]; intros acc w Hagree; [done|].
  destruct (Hagree text) as [Hcall Hconv]; [apply list_elem_of_here|].
  cbn [main_loop]. unfold bind, tok_encode, tok_convert_ids_to_tokens, bind, log, call.
  cbn. rewrite <- Hcall. destruct (tok_call tok1 text true false) as [enc|e]; [|done].
  rewrite <- (Hconv enc eq_refl).
  destruct (convert_ids_to_tokens tok1 (input_ids enc)) as [toks|e]; [|done].
  apply IH. intros t Ht. apply Hagree. by apply list_elem_of_further.
Qed.

Lemma write_stage_ext env1 env2 results w :
  preferred_encoding env1 = preferred_encoding env2 ->
  linesep env1 = linesep env2 ->
  write_stage env1 results w = write_stage env2 results w.
Proof.
  intros Henc Hnl. unfold write_stage, bind at 1, with_open_w, bind at 1.
  unfold bind at 2. unfold open_w, bind. rewrite Henc, Hnl. reflexivity.
Qed.

(** ** The characters of the document *)

Lemma uint_printable d :
  Forall (fun c => printable c = true) (lit (NilEmpty.string_of_uint d)).
Proof. induction d; cbn; by repeat constructor. Qed.

Lemma intstr_printable n : Forall (fun c => printable c = true) (intstr n).
Proof.
  unfold intstr. destruct (Z.to_int n) as [d|d]; cbn [NilZero.string_of_int].
  - unfold NilZero.string_of_uint. destruct d; try apply uint_printable.
    by repeat constructor.
  - change (lit (String "-" (NilZero.string_of_uint d)))
      with (0x2D :: lit (NilZero.string_of_uint d)).
    constructor; [done|].
    unfold NilZero.string_of_uint. destruct d; try apply uint_printable.
    by repeat constructor.
Qed.

Lemma spec_char_ascii_printable :
  forallb (fun c => forallb printable (spec_char c)) (map N.of_nat (seq 0 128)) = true.
Proof. vm_compute. reflexivity. Qed.

Section Characters.
Variable P : N -> Prop.
Hypothesis P_printable : forall c, printable c = true -> P c.
Hypothesis P_newline : P 0x0A.

Lemma printable_P s : Forall (fun c => printable c = true) s -> Forall P s.
Proof. intros H. eapply Forall_impl; [exact H | exact P_printable]. Qed.

Lemma line_P k : Forall P (line k).
Proof.
  unfold line. apply Forall_app. split; [by repeat constructor|].
  induction k; cbn; constructor; [by apply P_printable|done].
Qed.

Lemma spec_string_P s : Forall (fun c => 0x80 <= c -> P c) s -> Forall P (spec_string s).
Proof.
  intros Hs. unfold spec_string.
  apply Forall_app. split; [constructor; [by apply P_printable|constructor]|].
  apply Forall_app. split; [|constructor; [by apply P_printable|constructor]].
  induction Hs as [|c s Hc _ IH]; [constructor|]. cbn [flat_map].
  apply Forall_app. split; [|exact IH].
  destruct (N.ltb_spec c 0x80) as [Hlt|Hge].
  - apply printable_P. apply Forall_forall. intros x Hx.
    pose proof spec_char_ascii_printable as H. rewrite forallb_forall in H.
    specialize (H c). rewrite forallb_forall in H. apply H.
    + apply in_map_iff. exists (N.to_nat c). split; [lia|]. apply in_seq. lia.
    + by apply list_elem_of_In.
  - unfold spec_char. destruct (N.leb_spec 0x80 c); [|lia].
    constructor; [by apply Hc|constructor].
Qed.

Lemma join_P sep items :
  Forall P sep -> Forall (Forall P) items -> Forall P (join sep items).
Proof.
  intros Hsep Hitems. induction Hitems as [|x items Hx Hitems IH]; [constructor|].
  destruct items as [|y items]; [exact Hx|].
  change (join sep (x :: y :: items)) with (x ++ sep ++ join sep (y :: items)).
  repeat (apply Forall_app; split); done.
Qed.

Lemma spec_array_P pad items : Forall (Forall P) items -> Forall P (spec_array pad items).
Proof.
  intros Hitems. unfold spec_array. destruct items as [|x items].
  { apply printable_P. by repeat constructor. }
  apply Forall_app. split; [apply printable_P; by repeat constructor|].
  apply Forall_app. split; [apply line_P|].
  apply Forall_app. split.
  - apply join_P; [|done]. apply Forall_app. split; [|apply line_P].
    apply printable_P. by repeat constructor.
  - apply Forall_app. split; [apply line_P|]. apply printable_P. by repeat constructor.
Qed.

Lemma spec_key_P name :
  Forall (fun c => printable c = true) (lit name) -> Forall P (spec_key name).
Proof.
  intros H. unfold spec_key. apply printable_P.
  apply Forall_app. split; [by repeat constructor|].
  apply Forall_app. split; [done|]. by repeat constructor.
Qed.

Lemma spec_record_P r :
  Forall (fun c => 0x80 <= c -> P c) (input r) ->
  Forall (Forall (fun c => 0x80 <= c -> P c)) (tokens r) ->
  Forall P (spec_record r).
Proof.
  intros Hin Htoks. unfold spec_record.
  repeat first
    [ apply line_P
    | apply spec_key_P; by repeat constructor
    | apply printable_P; by repeat constructor
    | by apply spec_string_P
    | apply spec_array_P
    | apply Forall_app; split ].
  - apply Forall_map, Forall_forall. intros n _. apply printable_P, intstr_printable.
  - apply Forall_map, Forall_forall. intros p _.
    apply spec_array_P. repeat constructor; apply printable_P, intstr_printable.
  - apply Forall_map.
    eapply Forall_impl; [exact Htoks|]. intros s Hs. by apply spec_string_P.
Qed.

Lemma spec_document_P results :
  Forall (fun r => Forall (fun c => 0x80 <= c -> P c) (input r) /\
                   Forall (Forall (fun c => 0x80 <= c -> P c)) (tokens r)) results ->
  Forall P (spec_document results).
Proof.
  intros H. unfold spec_document. apply spec_array_P. apply Forall_map.
  eapply Forall_impl; [exact H|]. intros r [Hin Htoks]. by apply spec_record_P.
Qed.
End Characters.

(** ** Encoding under UTF-8 *)

Lemma utf_8_scalar c : scalar c = true -> is_Some (utf_8 c).
Proof.
  unfold scalar. intros H.
  assert (c < 0xD800 \/ (0xE000 <= c /\ c < 0x110000)) as Hc.
  { apply orb_true_iff in H as [H|H]; [left; by apply N.ltb_lt|right].
    apply andb_true_iff in H as [H1 H2]. split; [by apply N.leb_le|by apply N.ltb_lt]. }
  clear H. unfold utf_8.
  destruct (c <? 0x80); [by eexists|]. destruct (c <? 0x800); [by eexists|].
  destruct (N.ltb_spec c 0x10000) as [Hlt|Hge].
  - destruct (N.leb_spec 0xD800 c) as [H1|H1];
      destruct (N.ltb_spec c 0xE000) as [H2|H2]; cbn [andb]; try by eexists.
    lia.
  - destruct (N.ltb_spec c 0x110000) as [H3|H3]; [by eexists|]. lia.
Qed.

Lemma encode_text_total (enc : codec) s :
  Forall (fun c => is_Some (enc c)) s -> is_Some (encode_text enc s).
Proof.
  induction 1 as [|c s [b Hb] _ [bs IH]]; [by eexists|].
  rewrite encode_text_cons, Hb, IH. by eexists.
Qed.

Lemma translate_newlines_Forall (P : N -> Prop) nl s :
  Forall P nl -> Forall P s -> Forall P (translate_newlines nl s).
Proof.
  intros Hnl Hs. unfold translate_newlines.
  induction Hs as [|c s Hc _ IH]; [constructor|]. cbn [flat_map].
  apply Forall_app. split; [|exact IH].
  destruct (c =? 0x0A); [exact Hnl|]. by constructor.
Qed.

Lemma test_cases_scalar : Forall (Forall (fun c => scalar c = true)) test_cases.
Proof. unfold test_cases. repeat constructor. Qed.

(** ** The calls of a run are the script's *)

Lemma produced_calls_events tok l recs :
  Forall2 (produced tok) l recs ->
  Forall (fun t => t ∈ test_cases) l ->
  Forall script_event (flat_map record_calls recs).
Proof.
  induction 1 as [|t r l recs (enc & _ & _ & Hin & _) _ IH]; intros Hl; [constructor|].
  apply Forall_cons in Hl as [Ht Hl]. cbn.
  constructor; [by rewrite Hin|]. constructor; [done|]. by apply IH.
Qed.

Lemma produced_calls_not_loads tok l recs :
  Forall2 (produced tok) l recs ->
  Forall (fun ev => forall n, ev <> EvFromPretrained n) (flat_map record_calls recs).
Proof. induction 1; [constructor|]. cbn. by repeat constructor. Qed.

Lemma test_cases_self : Forall (fun t => t ∈ test_cases) test_cases.
Proof. apply Forall_forall. auto. Qed.

Lemma test_cases_members k : Forall (fun t => t ∈ test_cases) (take k test_cases).
Proof. apply Forall_take, Forall_forall. auto. Qed.

Lemma round_fails_script_events tok text e fevs :
  text ∈ test_cases -> round_fails tok text e fevs ->
  Forall script_event fevs /\ Forall (fun ev => forall n, ev <> EvFromPretrained n) fevs.
Proof.
  intros Hin [[_ ->]|(enc & _ & _ & ->)]; split;
    repeat (apply Forall_cons_2; [done|]); apply Forall_nil_2.
Qed.

Lemma writes_script_events chunks :
  Forall script_event (map (EvWrite golden_path) chunks) /\
  Forall (fun ev => forall n, ev <> EvFromPretrained n) (map (EvWrite golden_path) chunks).
Proof.
  induction chunks as [|c chunks [IH1 IH2]]; split; try apply Forall_nil_2;
    cbn [map]; by apply Forall_cons_2.
Qed.

Lemma test_cases_NoDup : NoDup test_cases.
Proof. apply (bool_decide_unpack _). vm_compute. exact I. Qed.

Lemma final_line_eleven results :
  length results = 11%nat -> final_line results = lit "Generated 11 test cases".
Proof. intros H. unfold final_line, len. by rewrite H. Qed.

Lemma no_encode_calls (later : str) (l : list str) :
  later ∉ l ->
  flat_map (fun t => if bool_decide (t = later) then [(true, false)] else []) l = [].
Proof.
  induction l as [|t l IH]; [done|]. intros [Hne Hnot]%not_elem_of_cons. cbn [flat_map].
  rewrite bool_decide_eq_false_2 by (intros Heq; by apply Hne). by apply IH.
Qed.

Lemma Forall_over_map {A B} (P : B -> Prop) (f : A -> B) (l : list A) :
  Forall P (map f l) -> Forall (fun x => P (f x)) l.
Proof.
  induction l as [|x l IH]; [constructor|]. cbn [map].
  intros [Hx Hl]%Forall_cons. constructor; [done|by apply IH].
Qed.

Lemma main_ok_text env w w' evs :
  main env w = (Ok tt, w') ->
  trace w' = trace w ++ evs ->
  exists tok results,
    from_pretrained env model_name = Ok tok /\
    Forall2 (produced tok) test_cases results /\
    text_written golden_path evs = spec_document results /\
    List.filter is_tokenizer_event evs =
      EvFromPretrained model_name :: flat_map record_calls results.
Proof.
  intros (tok & results & bs & Hload & Hrecs & _ & _ & _ & _ & _ & _ & Ht)%main_ok_inv Hevs.
  rewrite Ht in Hevs. apply app_inv_head in Hevs as <-.
  exists tok, results. split_and!; try done.
  - rewrite !text_written_app, text_written_calls, text_written_writes. cbn.
    rewrite app_nil_r. apply dumps_document.
  - rewrite !List.filter_app, tokenizer_events_calls, tokenizer_events_writes. cbn.
    by rewrite app_nil_r.
Qed.


(** ** Line feeds *)

Lemma line_feeds_app s1 s2 : line_feeds (s1 ++ s2) = (line_feeds s1 + line_feeds s2)%nat.
Proof. apply count_occ_app. Qed.

Lemma line_feeds_none s : Forall (fun c => 0x20 <= c) s -> line_feeds s = 0%nat.
Proof.
  induction 1 as [|c s Hc _ IH]; [done|]. unfold line_feeds in *. cbn [count_occ].
  destruct (N.eq_dec c 0x0A); [lia|done].
Qed.

Lemma printable_no_control s :
  Forall (fun c => printable c = true) s -> Forall (fun c => 0x20 <= c) s.
Proof.
  intros H. eapply Forall_impl; [exact H|].
  intros c [Hc _]%andb_true_iff. by apply N.leb_le.
Qed.

Lemma spec_string_no_control s : Forall (fun c => 0x20 <= c) (spec_string s).
Proof.
  apply (spec_string_P (fun c => 0x20 <= c)).
  - intros c [Hc _]%andb_true_iff. by apply N.leb_le.
  - apply Forall_forall. intros c _ Hc. lia.
Qed.

Lemma line_feeds_line k : line_feeds (line k) = 1%nat.
Proof.
  unfold line. rewrite line_feeds_app. cbn.
  rewrite line_feeds_none; [done|]. induction k; cbn; constructor; [lia|done].
Qed.

Lemma line_feeds_intstr n : line_feeds (intstr n) = 0%nat.
Proof. apply line_feeds_none, printable_no_control, intstr_printable. Qed.

Lemma line_feeds_join sep items :
  line_feeds (join sep items) =
  (list_sum (map line_feeds items) + (length items - 1) * line_feeds sep)%nat.
Proof.
  induction items as [|x items IH]; [done|].
  destruct items as [|y items].
  { change (join sep [x]) with x. cbn -[line_feeds]. lia. }
  change (join sep (x :: y :: items)) with (x ++ sep ++ join sep (y :: items)).
  rewrite !line_feeds_app, IH. cbn -[line_feeds]. rewrite !Nat.sub_0_r. lia.
Qed.

Lemma line_feeds_array pad items :
  line_feeds (spec_array pad items) =
  (array_line_feeds (length items) + list_sum (map line_feeds items))%nat.
Proof.
  unfold spec_array. destruct items as [|x items]; [done|].
  rewrite !line_feeds_app, line_feeds_join, !line_feeds_app, !line_feeds_line.
  change (line_feeds (lit "[")) with 0%nat. change (line_feeds (lit "]")) with 0%nat.
  change (line_feeds (lit ",")) with 0%nat.
  cbn -[line_feeds]. rewrite !Nat.sub_0_r. lia.
Qed.

Lemma list_sum_zero {A} (f : A -> nat) (l : list A) :
  (forall x, f x = 0%nat) -> list_sum (map f l) = 0%nat.
Proof.
  intros H. induction l as [|x l IH]; [done|].
  change (list_sum (map f (x :: l))) with (f x + list_sum (map f l))%nat.
  by rewrite H, IH.
Qed.

Lemma list_sum_const {A} (f : A -> nat) (k : nat) (l : list A) :
  (forall x, f x = k) -> list_sum (map f l) = (k * length l)%nat.
Proof.
  intros H. induction l as [|x l IH]; [cbn; lia|].
  change (list_sum (map f (x :: l))) with (f x + list_sum (map f l))%nat.
  rewrite H, IH. cbn [length]. lia.
Qed.

Lemma line_feeds_key name :
  Forall (fun c => printable c = true) (lit name) -> line_feeds (spec_key name) = 0%nat.
Proof.
  intros H. apply line_feeds_none, printable_no_control. unfold spec_key.
  apply Forall_app. split; [by repeat constructor|].
  apply Forall_app. split; [done|]. by repeat constructor.
Qed.

Lemma line_feeds_record r : line_feeds (spec_record r) = record_line_feeds r.
Proof.
  unfold spec_record, record_line_feeds.
  rewrite !line_feeds_app, !line_feeds_line, !line_feeds_array, !map_map, !length_map.
  rewrite !line_feeds_key by (by repeat constructor).
  rewrite (line_feeds_none (spec_string (input r))) by apply spec_string_no_control.
  rewrite (list_sum_zero (fun x => line_feeds (intstr x))) by apply line_feeds_intstr.
  rewrite (list_sum_zero (fun x => line_feeds (spec_string x)))
    by (intros s; apply line_feeds_none, spec_string_no_control).
  rewrite (list_sum_const _ 3).
  2:{ intros p. rewrite line_feeds_array. cbn. rewrite !line_feeds_intstr. done. }
  change (line_feeds (lit "{")) with 0%nat. change (line_feeds (lit "}")) with 0%nat.
  change (line_feeds (lit ",")) with 0%nat. lia.
Qed.

Lemma line_feeds_document results :
  line_feeds (spec_document results) = document_line_feeds results.
Proof.
  unfold spec_document, document_line_feeds.
  rewrite line_feeds_array, map_map, length_map. f_equal. f_equal.
  apply map_ext. intros r. apply line_feeds_record.
Qed.

Lemma spec_char_raw c : 0x7F <= c -> spec_char c = [c].
Proof.
  intros Hc. unfold spec_char. destruct (N.leb_spec 0x80 c) as [|Hlt]; [done|].
  assert (c = 0x7F) as -> by lia. reflexivity.
Qed.

(** ** Chunks and characters *)

Lemma Forall_of_concat {A} (P : A -> Prop) (ls : list (list A)) :
  Forall P (concat ls) -> Forall (Forall P) ls.
Proof.
  induction ls as [|l ls IH]; [constructor|]. cbn [concat].
  intros [Hl Hls]%Forall_app. constructor; [done|by apply IH].
Qed.

Lemma span_loop_stale :
  main_loop span_tokenizer test_cases [] (add_events [EvFromPretrained model_name] w_stale)
  = (Ok span_results, w_tokenized).
Proof. vm_compute. reflexivity. Qed.

Lemma document_scalar tok results :
  Forall2 (produced tok) test_cases results ->
  Forall (fun r => Forall (Forall (fun c => scalar c = true)) (tokens r)) results ->
  Forall (fun c => scalar c = true) (spec_document results).
Proof.
  intros Hrecs Htoks.
  apply spec_document_P; [by intros c [_ ?%N.ltb_lt]%andb_true_iff; unfold scalar;
                          rewrite (proj2 (N.ltb_lt c 0xD800)) by lia | done |].
  pose proof (produced_inputs _ _ _ Hrecs) as Hin.
  pose proof test_cases_scalar as Hsc. rewrite <- Hin in Hsc.
  apply Forall_over_map in Hsc. rewrite Forall_forall in Hsc. rewrite Forall_forall in Htoks.
  apply Forall_forall. intros r Hr. split.
  - eapply Forall_impl; [exact (Hsc r Hr)|]. auto.
  - eapply Forall_impl; [exact (Htoks r Hr)|].
    intros s Hs. eapply Forall_impl; [exact Hs|]. auto.
Qed.

(** X1.  Exit status 0 means the output file is complete: the model was
    loaded, both calls returned for every test case, [testdata] is a
    directory and the output path is not one, and the file holds the
    encoding of the whole document of the eleven records. *)
Theorem X1_exit_zero_means_complete (env : Env) (w : World) :
  fst (script env w) = 0%Z ->
  exists tok results bs,
    main env w = (Ok tt, snd (script env w)) /\
    from_pretrained env model_name = Ok tok /\
    Forall2 (produced tok) test_cases results /\
    dirname golden_path ∈ dirs w /\ (golden_path ∉ dirs w) /\
    encode_text (preferred_encoding env)
      (translate_newlines (linesep env) (spec_document results)) = Some bs /\
    files (snd (script env w)) !! golden_path = Some bs.
Proof.
  unfold script. destruct (main env w) as [[[]|e] w'] eqn:Hrun; cbn; [|done].
  intros _.
  apply main_ok_inv in Hrun
    as (tok & results & bs & Hload & Hrecs & Hdir & Hnd & Henc & _ & Hf & _).
  rewrite dumps_document in Henc.
  exists tok, results, bs. split_and!; try done. rewrite Hf. apply lookup_insert_eq.
Qed.

Lemma X1_exit_zero_means_complete_witness :
  fst (script posix_utf8 w_stale) = 0%Z /\
  exists results bs,
    encode_text utf_8 (translate_newlines [0x0A] (spec_document results)) = Some bs /\
    files (snd (script posix_utf8 w_stale)) !! golden_path = Some bs.
Proof.
  assert (fst (script posix_utf8 w_stale) = 0%Z) as H0 by (vm_compute; reflexivity).
  split; [exact H0|].
  destruct (X1_exit_zero_means_complete posix_utf8 w_stale H0)
    as (tok & results & bs & _ & _ & _ & _ & _ & Henc & Hfile).
  exists results, bs. split; [exact Henc | exact Hfile].
Defined.

(** X2.  A run that completes prints exactly one line, [Generated 11 test
    cases], after everything else it does; the count is that of the
    records, whatever the tokenizer returned. *)
Theorem X2_prints_the_count_last (env : Env) (w w' : World) :
  main env w = (Ok tt, w') ->
  stdout w' = stdout w ++ lit "Generated 11 test cases" ++ [0x0A] /\
  last (trace w') = Some (EvPrint (lit "Generated 11 test cases")).
Proof.
  intros (tok & results & bs & _ & Hrecs & _ & _ & _ & _ & _ & Hs & Ht)%main_ok_inv.
  apply Forall2_length in Hrecs. rewrite final_line_eleven in Hs, Ht by done.
  split; [exact Hs|]. rewrite Ht, !app_assoc.
  change [EvClose golden_path; EvPrint (lit "Generated 11 test cases")]
    with ([EvClose golden_path] ++ [EvPrint (lit "Generated 11 test cases")]).
  rewrite app_assoc. apply last_snoc.
Qed.

Lemma X2_prints_the_count_last_witness :
  main posix_utf8 w_stale = (Ok tt, w_redone) /\
  stdout w_redone = lit "ok" ++ lit "Generated 11 test cases" ++ [0x0A].
Proof.
  split; [exact stale_run|].
  exact (proj1 (X2_prints_the_count_last posix_utf8 w_stale w_redone stale_run)).
Defined.

(** X3.  From the end of the loop on, whatever happens, the run makes or
    removes no directory and creates, changes or removes no file other
    than the output file; what was printed before is still there. *)
Theorem X3_after_the_loop_one_file_changes (env : Env) (w w1 w' : World)
    (tok : Tokenizer) (results : list GoldenRecord) (r : result unit) :
  from_pretrained env model_name = Ok tok ->
  main_loop tok test_cases [] (add_events [EvFromPretrained model_name] w)
    = (Ok results, w1) ->
  main env w = (r, w') ->
  dirs w' = dirs w1 /\
  (forall p, p <> golden_path -> files w' !! p = files w1 !! p) /\
  (exists out, stdout w' = stdout w1 ++ out) /\
  (exists evs, trace w' = trace w1 ++ evs /\
               Forall (fun ev => is_tokenizer_event ev = false) evs).
Proof.
  intros Hload Hloop. rewrite main_unfold, Hload, Hloop.
  intros Hw. pose proof Hw as Hinv%write_stage_inv. destruct r as [[]|e].
  - destruct Hinv as (bs & _ & _ & _ & Hd & Hf & Hs & Ht).
    split_and!; [done| |by eexists|].
    + intros p Hp. rewrite Hf. by apply lookup_insert_ne.
    + eexists. split; [exact Ht|]. apply Forall_cons_2; [done|].
      apply Forall_app. split; [apply writes_not_tokenizer|by repeat constructor].
  - destruct Hinv as (Hd & Hs & Hf & [[_ ->]|Hwrite]).
    + split_and!; [done|done|exists []; by rewrite app_nil_r|].
      exists [EvOpen golden_path]. split; [done|by repeat constructor].
    + destruct Hwrite as (written & chunk & rest & _ & _ & _ & _ & _ & _ & Ht).
      split_and!; [done|done|exists []; by rewrite app_nil_r|].
      eexists. split; [exact Ht|]. apply Forall_cons_2; [done|].
      apply Forall_app. split; [apply writes_not_tokenizer|by repeat constructor].
Qed.

Lemma X3_after_the_loop_one_file_changes_witness :
  main posix_utf8 w_stale = (Ok tt, w_redone) /\
  dirs w_redone = dirs w_tokenized /\
  files w_redone !! lit "go.mod" = files w_tokenized !! lit "go.mod".
Proof.
  split; [exact stale_run|].
  destruct (X3_after_the_loop_one_file_changes posix_utf8 w_stale w_tokenized w_redone
              span_tokenizer span_results _ eq_refl span_loop_stale stale_run)
    as (Hd & Hf & _).
  split; [exact Hd|]. apply Hf. discriminate.
Defined.

(** X4.  When the platform's encoding lacks a character of some chunk of
    the document, the run raises [UnicodeEncodeError] for the first such
    chunk; the output file has been truncated and holds the encoding of
    the chunks before it, so what it held before is lost; nothing is
    printed and the file is closed last. *)
Theorem X4_encoding_failure_leaves_partial_file (env : Env) (w : World)
    (tok : Tokenizer) (results : list GoldenRecord) (k : nat) (chunk : str) (bs : bytes) :
  from_pretrained env model_name = Ok tok ->
  Forall2 (produced tok) test_cases results ->
  dirname golden_path ∈ dirs w -> golden_path ∉ dirs w ->
  iterencode 2 false (results_py results) 0 !! k = Some chunk ->
  encode_text (preferred_encoding env)
    (translate_newlines (linesep env)
       (concat (take k (iterencode 2 false (results_py results) 0)))) = Some bs ->
  encode_text (preferred_encoding env) (translate_newlines (linesep env) chunk) = None ->
  exists w',
    main env w = (Raise (UnicodeEncodeError chunk), w') /\
    files w' = <[golden_path := bs]> (files w) /\
    dirs w' = dirs w /\ stdout w' = stdout w /\
    last (trace w') = Some (EvClose golden_path).
Proof.
  intros Hload Hrecs Hdir Hnd Hk Hbs Hnone.
  rewrite main_unfold, Hload, (main_loop_run _ _ _ _ _ Hrecs). cbn [app].
  unfold write_stage, bind at 1, with_open_w, bind at 1. rewrite open_w_golden.
  rewrite (bool_decide_eq_true_2 _ Hdir), (bool_decide_eq_false_2 _ Hnd).
  unfold json_dump. rewrite <- (take_drop_middle _ _ _ Hk).
  set (f := {| f_name := golden_path; f_encoding := preferred_encoding env;
               f_newline := linesep env |}).
  set (w0 := set_files _ _).
  destruct (write_chunks_fail f chunk
              (drop (S k) (iterencode 2 false (results_py results) 0))
              (take k (iterencode 2 false (results_py results) 0)) w0 [] bs)
    as (w1 & Hrun & Hd & Hs & Hf & Ht); [apply lookup_insert_eq|done|done|].
  rewrite Hrun. unfold file_close, log. eexists. split; [reflexivity|]. cbn.
  split_and!; [|done|done|].
  - rewrite Hf. cbn. by rewrite insert_insert_eq.
  - apply last_snoc.
Qed.

Lemma X4_encoding_failure_leaves_partial_file_witness :
  exists chunk bs w',
    iterencode 2 false (results_py span_results) 0 !! 265%nat = Some chunk /\
    main posix_latin1 w_stale = (Raise (UnicodeEncodeError chunk), w') /\
    files w_stale !! golden_path = Some (lit "[]") /\
    files w' !! golden_path = Some bs.
Proof.
  eexists _, _.
  edestruct (X4_encoding_failure_leaves_partial_file posix_latin1 w_stale
               span_tokenizer span_results 265)
    as (w' & Hrun & Hf & _);
    [reflexivity | exact span_results_produced
    | apply (bool_decide_eq_true_1 _); vm_compute; reflexivity
    | apply (bool_decide_eq_false_1 _); vm_compute; reflexivity
    | vm_compute; reflexivity | vm_compute; reflexivity | vm_compute; reflexivity |].
  exists w'. split; [vm_compute; reflexivity|]. split; [exact Hrun|].
  split; [vm_compute; reflexivity|]. rewrite Hf. apply lookup_insert_eq.
Defined.



(** X6.  In every run, completed or not, the first call to the outside is
    the one load of [xlm-roberta-base], and every later call is an encode
    call on a test case with offsets requested and special tokens off, an
    id resolution, an operation on the output file, or the print: special
    tokens are never requested and no other model or file is touched. *)
Theorem X6_calls_are_the_scripts (env : Env) (w w' : World) (r : result unit) :
  main env w = (r, w') ->
  exists rest,
    trace w' = trace w ++ EvFromPretrained model_name :: rest /\
    Forall script_event rest /\
    Forall (fun ev => forall name, ev <> EvFromPretrained name) rest.
Proof.
  intros Hrun. destruct r as [[]|e].
  - apply main_ok_inv in Hrun as (tok & results & bs & _ & Hrecs & _ & _ & _ & _ & _ & _ & Ht).
    eexists. split; [exact Ht|].
    pose proof (produced_calls_events _ _ _ Hrecs test_cases_self) as H1.
    pose proof (produced_calls_not_loads _ _ _ Hrecs) as H2.
    destruct (writes_script_events (iterencode 2 false (results_py results) 0)) as [H3 H4].
    split; repeat (apply Forall_app; split); try done;
      repeat (apply Forall_cons_2; [done|]); apply Forall_nil_2.
  - apply main_raise_inv in Hrun
      as [Hload ->|tok recs text fevs Hload Hrecs Hlook Hfail ->
          |tok results Hload Hrecs He ->
          |tok results written chunk rest Hload Hrecs _ _ _ _ _ _ Hd Hs Hf Ht].
    + exists []. split_and!; [done|constructor|constructor].
    + eexists. split; [done|].
      pose proof (produced_calls_events _ _ _ Hrecs (test_cases_members _)) as H1.
      pose proof (produced_calls_not_loads _ _ _ Hrecs) as H2.
      destruct (round_fails_script_events _ _ _ _ (list_elem_of_lookup_2 _ _ _ Hlook) Hfail)
        as [H3 H4].
      split; apply Forall_app; done.
    + eexists. split; [done|].
      pose proof (produced_calls_events _ _ _ Hrecs test_cases_self) as H1.
      pose proof (produced_calls_not_loads _ _ _ Hrecs) as H2.
        split; apply Forall_app; (split; [done|]);
        (apply Forall_cons_2; [done|]); apply Forall_nil_2.
    + eexists. split; [exact Ht|].
      pose proof (produced_calls_events _ _ _ Hrecs test_cases_self) as H1.
      pose proof (produced_calls_not_loads _ _ _ Hrecs) as H2.
        destruct (writes_script_events written) as [H3 H4].
      split; repeat (apply Forall_app; split); try done;
        repeat (apply Forall_cons_2; [done|]); apply Forall_nil_2.
Qed.

Lemma X6_calls_are_the_scripts_witness :
  main windows_cp1252 w_ready = (Ok tt, w_win) /\
  exists rest,
    trace w_win = EvFromPretrained model_name :: rest /\
    Forall script_event rest.
Proof.
  split; [exact windows_run|].
  destruct (X6_calls_are_the_scripts windows_cp1252 w_ready w_win _ windows_run)
    as (rest & Ht & Hrest & _).
  exists rest. split; [exact Ht | exact Hrest].
Defined.

(** X7.  When the calls return for the first [k] test cases and a call
    raises for the next, the run ends in that exception right after the
    failing call: the records made so far are dropped, the file is never
    opened, and no later test case is handed to the tokenizer. *)
Theorem X7_first_failure_stops_the_loop (env : Env) (w : World) (tok : Tokenizer)
    (recs : list GoldenRecord) (text : str) (e : exn) (fevs : list event) :
  from_pretrained env model_name = Ok tok ->
  Forall2 (produced tok) (take (length recs) test_cases) recs ->
  test_cases !! length recs = Some text ->
  round_fails tok text e fevs ->
  main env w =
    (Raise e,
     add_events ([EvFromPretrained model_name] ++ flat_map record_calls recs ++ fevs) w) /\
  (forall later, later ∈ drop (S (length recs)) test_cases ->
     encode_calls later ([EvFromPretrained model_name] ++ flat_map record_calls recs ++ fevs)
     = []).
Proof.
  intros Hload Hrecs Hlook Hfail. split.
  - rewrite main_unfold, Hload.
    rewrite (main_loop_fail_run tok e text fevs test_cases recs [] _ Hrecs Hlook Hfail).
    by rewrite add_events_app.
  - intros later Hlater.
    pose proof test_cases_NoDup as Hnd.
    rewrite <- (take_drop (S (length recs)) test_cases) in Hnd.
    apply NoDup_app in Hnd as (_ & Hdisj & _).
    assert (later ∉ take (S (length recs)) test_cases) as Hnot
      by (intros Hin; by apply (Hdisj later)).
    rewrite (take_S_r _ _ _ Hlook) in Hnot. apply not_elem_of_app in Hnot as [Hnot1 Hnot2].
    rewrite !encode_calls_app, encode_calls_records, (produced_inputs _ _ _ Hrecs).
    assert (text <> later) as Hne by (intros ->; apply Hnot2, list_elem_of_here).
    assert (encode_calls later fevs = []) as ->.
    { destruct Hfail as [[_ ->]|(enc & _ & _ & ->)]; cbn;
        by rewrite (bool_decide_eq_false_2 _ Hne). }
    rewrite app_nil_r. cbn [encode_calls omap app].
    by apply no_encode_calls.
Qed.

Lemma X7_first_failure_stops_the_loop_witness :
  test_cases !! 8%nat = Some (lit "caf" ++ [0xC3; 0xA9]) /\
  main posix_ascii_vocab w_ready =
    (Raise (LibraryError (lit "caf" ++ [0xC3; 0xA9])),
     add_events ([EvFromPretrained model_name]
                 ++ flat_map record_calls (take 8 span_results)
                 ++ [EvEncode (lit "caf" ++ [0xC3; 0xA9]) true false]) w_ready).
Proof.
  split; [reflexivity|].
  apply (X7_first_failure_stops_the_loop posix_ascii_vocab w_ready ascii_tokenizer
           (take 8 span_results) (lit "caf" ++ [0xC3; 0xA9])).
  - reflexivity.
  - cbn [length take span_results map test_cases].
    repeat (apply Forall2_cons_2;
            [eexists; split; [reflexivity|]; split; [reflexivity|]; split; [reflexivity|];
             split; reflexivity|]).
    apply Forall2_nil_2.
  - reflexivity.
  - left. split; reflexivity.
Defined.

(** X8.  The run sees the tokenizer only through the calls it makes: two
    tokenizers that answer alike for the eleven test cases, encoded with
    offsets requested and special tokens off, and for the ids returned,
    lead on the same platform to the same outcome, file, output and log,
    however they differ elsewhere. *)
Theorem X8_only_the_answers_matter (env1 env2 : Env) (tok1 tok2 : Tokenizer) (w : World) :
  from_pretrained env1 model_name = Ok tok1 ->
  from_pretrained env2 model_name = Ok tok2 ->
  preferred_encoding env1 = preferred_encoding env2 ->
  linesep env1 = linesep env2 ->
  (forall text, text ∈ test_cases ->
     tok_call tok1 text true false = tok_call tok2 text true false /\
     forall enc, tok_call tok1 text true false = Ok enc ->
       convert_ids_to_tokens tok1 (input_ids enc)
       = convert_ids_to_tokens tok2 (input_ids enc)) ->
  main env1 w = main env2 w.
Proof.
  intros Hl1 Hl2 Henc Hnl Hagree.
  rewrite !main_unfold, Hl1, Hl2, (main_loop_ext tok1 tok2 _ _ _ Hagree).
  destruct (main_loop tok2 test_cases [] _) as [[results|e] w1]; [|done].
  by apply write_stage_ext.
Qed.

Lemma X8_only_the_answers_matter_witness :
  tok_call span_tokenizer [] true true <> tok_call plain_tokenizer [] true true /\
  main posix_utf8 w_ready = main posix_plain w_ready.
Proof.
  split; [discriminate|].
  apply (X8_only_the_answers_matter posix_utf8 posix_plain span_tokenizer plain_tokenizer);
    try reflexivity.
  intros text _. split; [by destruct text|]. reflexivity.
Defined.

(** X9.  On a platform whose encoding is UTF-8 no chunk of the document is
    refused for want of a character: when the model loads, the calls return
    for every test case and the token strings and the line separator hold
    no surrogate, every chunk handed to the file can be encoded, and the
    run, however it ends, does not end in [UnicodeEncodeError]. *)
Theorem X9_utf8_refuses_no_chunk (env : Env) (w w' : World)
    (tok : Tokenizer) (results : list GoldenRecord) (r : result unit) :
  preferred_encoding env = utf_8 ->
  Forall (fun c => scalar c = true) (linesep env) ->
  from_pretrained env model_name = Ok tok ->
  Forall2 (produced tok) test_cases results ->
  Forall (fun r => Forall (Forall (fun c => scalar c = true)) (tokens r)) results ->
  main env w = (r, w') ->
  Forall (fun chunk =>
            is_Some (encode_text utf_8 (translate_newlines (linesep env) chunk)))
         (iterencode 2 false (results_py results) 0) /\
  (forall chunk, r <> Raise (UnicodeEncodeError chunk)).
Proof.
  intros Hutf Hnl Hload Hrecs Htoks Hrun.
  assert (Forall (fun chunk =>
            is_Some (encode_text utf_8 (translate_newlines (linesep env) chunk)))
          (iterencode 2 false (results_py results) 0)) as Hchunks.
  { pose proof (document_scalar _ _ Hrecs Htoks) as Hdoc.
    rewrite <- dumps_document in Hdoc. apply Forall_of_concat in Hdoc.
    eapply Forall_impl; [exact Hdoc|]. intros chunk Hc.
    apply encode_text_total.
    eapply Forall_impl; [apply translate_newlines_Forall; [exact Hnl|exact Hc]|].
    intros c Hsc. by apply utf_8_scalar. }
  split; [exact Hchunks|]. intros chunk ->.
  apply main_raise_inv in Hrun
    as [Hl _|tok' recs text fevs Hl Hrecs' Hlook Hfail _
        |tok' results' _ _ [[He _]|[He _]] _
        |tok' results' written chunk' rest Hl Hrecs' _ _ He Hnone Hsplit Hlast _ _ _ _].
  - congruence.
  - rewrite Hload in Hl. injection Hl as <-.
    destruct (Forall2_lookup_l _ _ _ _ _ Hrecs Hlook) as (r0 & _ & Hr0).
    by eapply round_fails_not_produced.
  - unfold missing_parent_error in He. by case_bool_decide.
  - done.
  - rewrite Hload in Hl. injection Hl as <-.
    rewrite <- (produced_all_functional _ _ _ _ Hrecs Hrecs') in Hsplit.
    injection He as <-. rewrite Hutf in Hnone.
    rewrite Forall_forall in Hchunks.
    destruct (Hchunks chunk) as [bs Hbs]; [|congruence].
    rewrite Hsplit. apply elem_of_app. left.
    apply last_Some in Hlast as [l' ->].
    apply elem_of_app. right. apply list_elem_of_here.
Qed.

Lemma X9_utf8_refuses_no_chunk_witness :
  main posix_utf8 w_bare =
    (Raise (FileNotFoundError golden_path), w_no_dir) /\
  Forall (fun chunk => is_Some (encode_text utf_8 (translate_newlines [0x0A] chunk)))
         (iterencode 2 false (results_py span_results) 0).
Proof.
  assert (main posix_utf8 w_bare = (Raise (FileNotFoundError golden_path), w_no_dir)) as Hrun
    by (vm_compute; reflexivity).
  split; [exact Hrun|].
  refine (proj1 (X9_utf8_refuses_no_chunk posix_utf8 w_bare w_no_dir span_tokenizer
                   span_results _ eq_refl _ eq_refl span_results_produced _ Hrun)).
  - repeat constructor.
  - unfold span_results, test_cases. repeat constructor.
Defined.

(** X10.  In the text a completed run writes, the characters below
    U+0020 of an input or a token (line feed, tab and the like) are
    written as escapes: no encoded string holds a character below U+0020,
    and the number of line feeds in the document is fixed by the numbers
    of records, ids, offsets and tokens alone.  DEL and every character
    from U+0080 on are written as they are. *)
Theorem X10_control_characters_are_escaped (env : Env) (w w' : World) (evs : list event) :
  main env w = (Ok tt, w') ->
  trace w' = trace w ++ evs ->
  exists tok results,
    from_pretrained env model_name = Ok tok /\
    Forall2 (produced tok) test_cases results /\
    text_written golden_path evs = spec_document results /\
    line_feeds (text_written golden_path evs) = document_line_feeds results /\
    Forall (fun r =>
              Forall (fun c => 0x20 <= c) (spec_string (input r)) /\
              Forall (fun s => Forall (fun c => 0x20 <= c) (spec_string s)) (tokens r))
           results /\
    (forall c, 0x7F <= c -> spec_char c = [c]).
Proof.
  intros Hrun Hevs.
  destruct (main_ok_text _ _ _ _ Hrun Hevs) as (tok & results & Hload & Hrecs & Htext & _).
  exists tok, results. split_and!; try done.
  - rewrite Htext. apply line_feeds_document.
  - apply Forall_forall. intros r _. split; [apply spec_string_no_control|].
    apply Forall_forall. intros s _. apply spec_string_no_control.
  - apply spec_char_raw.
Qed.

Lemma X10_control_characters_are_escaped_witness :
  main posix_utf8 w_ready = (Ok tt, w_done) /\
  line_feeds (text_written golden_path (trace w_done)) = 157%nat.
Proof.
  split; [exact posix_run|].
  destruct (X10_control_characters_are_escaped posix_utf8 w_ready w_done (trace w_done)
              posix_run eq_refl)
    as (tok & results & Hload & Hrecs & _ & Hlf & _).
  injection Hload as <-.
  rewrite <- (produced_all_functional _ _ _ _ span_results_produced Hrecs) in Hlf.
  rewrite Hlf. reflexivity.
Defined.

(** X11.  The platform decides the bytes of the file and nothing else: two
    completed runs with the same tokenizer, on whatever platforms and from
    whatever worlds, make the same tokenizer calls and hand the same text
    to the file. *)
Theorem X11_same_text_on_every_platform (env1 env2 : Env) (w1 w2 w1' w2' : World)
    (evs1 evs2 : list event) :
  from_pretrained env1 model_name = from_pretrained env2 model_name ->
  main env1 w1 = (Ok tt, w1') ->
  main env2 w2 = (Ok tt, w2') ->
  trace w1' = trace w1 ++ evs1 ->
  trace w2' = trace w2 ++ evs2 ->
  text_written golden_path evs1 = text_written golden_path evs2 /\
  List.filter is_tokenizer_event evs1 = List.filter is_tokenizer_event evs2.
Proof.
  intros Hsame Hrun1 Hrun2 Hevs1 Hevs2.
  destruct (main_ok_text _ _ _ _ Hrun1 Hevs1) as (tok1 & rs1 & Hl1 & Hr1 & -> & ->).
  destruct (main_ok_text _ _ _ _ Hrun2 Hevs2) as (tok2 & rs2 & Hl2 & Hr2 & -> & ->).
  rewrite Hsame, Hl2 in Hl1. injection Hl1 as <-.
  by rewrite (produced_all_functional _ _ _ _ Hr1 Hr2).
Qed.

Lemma X11_same_text_on_every_platform_witness :
  main posix_utf8 w_stale = (Ok tt, w_redone) /\
  main windows_cp1252 w_ready = (Ok tt, w_win) /\
  files w_redone !! golden_path <> files w_win !! golden_path /\
  text_written golden_path (drop 1 (trace w_redone)) = text_written golden_path (trace w_win).
Proof.
  split; [exact stale_run|]. split; [exact windows_run|].
  split; [apply (bool_decide_eq_false_1 _); vm_compute; reflexivity|].
  refine (proj1 (X11_same_text_on_every_platform posix_utf8 windows_cp1252
                   w_stale w_ready w_redone w_win _ _ eq_refl stale_run windows_run _ _)).
  - vm_compute. reflexivity.
  - vm_compute. reflexivity.
Defined.

